(** * gatewaysshd: the connection dispatcher and the gateway's service directory

    A shallow embedding of [gateway/connection.go] and of the gateway
    registry (the revision in which a connection is still called a
    session: [AddSession], [DeleteSession], [LookupSessionService],
    [ScavengeSessions]).

    Go pointers to connections are keys of a heap; the gateway's list and
    per-user index hold such keys, so one connection reached through both
    is one object.  Ports are [Z] with the [uint16]/[uint32] conversions
    written out.  Calls into the ssh library are recorded in a trace. *)

From Stdlib Require Import ZArith Lia List.
From Stdlib Require Import Strings.Ascii Strings.String Strings.Byte.
From stdpp Require Import base option list gmap strings fin_maps.

Local Open Scope Z_scope.

(* ===================================================================== *)
(** ** strings.Split and strings.Join at a one-byte separator            *)
(* ===================================================================== *)

(** [strings.Split(s, sep)]: the substrings between the separators; the
    empty string splits into one empty part. *)
Fixpoint Split (s : string) (sep : ascii) : list string :=
  match s with
  | EmptyString => [EmptyString]
  | String ch rest =>
      if Ascii.eqb ch sep then EmptyString :: Split rest sep
      else match Split rest sep with
           | [] => [String ch EmptyString]
           | part :: parts => String ch part :: parts
           end
  end.

(** [strings.Join(parts, sep)]. *)
Fixpoint Join (parts : list string) (sep : ascii) : string :=
  match parts with
  | [] => EmptyString
  | [part] => part
  | part :: rest => part +:+ String sep (Join rest sep)
  end.

Definition dot : ascii := "."%char.

(* ===================================================================== *)
(** ** Integer conversions                                               *)
(* ===================================================================== *)

Definition uint16 (n : Z) : Z := n mod 65536.
Definition uint32 (n : Z) : Z := n mod 4294967296.

(* ===================================================================== *)
(** ** Connection                                                        *)
(* ===================================================================== *)

Inductive error : Type :=
  | ErrServiceAlreadyRegistered
  | ErrServiceNotFound.

(** The fields of [Connection] that the dispatcher and the directory read
    or write.  [services] is [map[string]map[uint16]bool]; [closeOnce] is
    the done flag of the [sync.Once]; [used] is [usage.used] in
    nanoseconds. *)
Record Connection : Type := mkConnection {
  user : string;
  sessions : list nat;
  tunnels : list nat;
  services : gmap string (gmap Z bool);
  closeOnce : bool;
  used : Z;
  admin : bool
}.

Definition set_services (c : Connection) (m : gmap string (gmap Z bool)) : Connection :=
  mkConnection (user c) (sessions c) (tunnels c) m (closeOnce c) (used c) (admin c).

Definition set_tunnels (c : Connection) (ts : list nat) : Connection :=
  mkConnection (user c) (sessions c) ts (services c) (closeOnce c) (used c) (admin c).

Definition set_closeOnce (c : Connection) (b : bool) : Connection :=
  mkConnection (user c) (sessions c) (tunnels c) (services c) b (used c) (admin c).

(** A read of a Go map at a missing key gives the zero value. *)
Definition ports_at (m : gmap string (gmap Z bool)) (host : string) : gmap Z bool :=
  default ∅ (m !! host).

Definition port_flag (ports : gmap Z bool) (port : Z) : bool :=
  default false (ports !! port).

Definition lookupService (c : Connection) (host : string) (port : Z) : bool :=
  match services c !! host with
  | None => false
  | Some ports => port_flag ports port
  end.

Definition registerService (c : Connection) (host : string) (port : Z)
  : option error * Connection :=
  let m := match services c !! host with
           | None => <[host := ∅]> (services c)
           | Some _ => services c
           end in
  if port_flag (ports_at m host) port
  then (Some ErrServiceAlreadyRegistered, set_services c m)
  else (None, set_services c (<[host := <[port := true]> (ports_at m host)]> m)).

Definition deregisterService (c : Connection) (host : string) (port : Z)
  : option error * Connection :=
  match services c !! host with
  | Some ports => (None, set_services c (<[host := delete port ports]> (services c)))
  | None => (None, c)
  end.

Definition addTunnel (c : Connection) (t : nat) : Connection :=
  set_tunnels c (t :: tunnels c).

(* ===================================================================== *)
(** ** Wire codecs                                                       *)
(* ===================================================================== *)

Record forwardRequest : Type := mkForwardRequest {
  fwd_Host : string;
  fwd_Port : Z
}.

Record tunnelData : Type := mkTunnelData {
  Host : string;
  Port : Z;
  OriginAddress : string;
  OriginPort : Z
}.

Definition byteZ (b : byte) : Z := Z.of_N (Byte.to_N b).

Definition byte_of_Z (z : Z) : byte :=
  default Byte.x00 (Byte.of_N (Z.to_N (z mod 256))).

(** A big-endian [uint32] at the head of the buffer. *)
Definition parseUint32 (buf : list byte) : option (Z * list byte) :=
  match buf with
  | b0 :: b1 :: b2 :: b3 :: rest =>
      Some (byteZ b0 * 16777216 + byteZ b1 * 65536 + byteZ b2 * 256 + byteZ b3, rest)
  | _ => None
  end.

(** An SSH string: a [uint32] length, then that many bytes. *)
Definition parseString (buf : list byte) : option (string * list byte) :=
  match parseUint32 buf with
  | Some (n, rest) =>
      if n <=? Z.of_nat (length rest)
      then Some (string_of_list_byte (take (Z.to_nat n) rest), drop (Z.to_nat n) rest)
      else None
  | None => None
  end.

Definition putUint32 (n : Z) : list byte :=
  [byte_of_Z (n / 16777216); byte_of_Z (n / 65536); byte_of_Z (n / 256); byte_of_Z n].

Definition putString (s : string) : list byte :=
  putUint32 (Z.of_nat (String.length s)) ++ list_byte_of_string s.

(** Modelled from the spec: [unmarshalForwardRequest] is not among the
    source files.  The payload is "SSH string-and-uint32 framed",
    [{ host: string, port: uint32 }], and decoding fails when a length
    prefix (or the fixed-width field) runs past the buffer. *)
Definition unmarshalForwardRequest (payload : list byte) : option forwardRequest :=
  match parseString payload with
  | Some (host, rest) =>
      match parseUint32 rest with
      | Some (port, _) => Some (mkForwardRequest host port)
      | None => None
      end
  | None => None
  end.

(** Modelled from the spec: [unmarshalTunnelData] is not among the source
    files.  The payload is
    [{ host: string, port: uint32, origin_address: string, origin_port: uint32 }]
    in the same framing. *)
Definition unmarshalTunnelData (payload : list byte) : option tunnelData :=
  match parseString payload with
  | Some (host, rest1) =>
      match parseUint32 rest1 with
      | Some (port, rest2) =>
          match parseString rest2 with
          | Some (origin, rest3) =>
              match parseUint32 rest3 with
              | Some (oport, _) => Some (mkTunnelData host port origin oport)
              | None => None
              end
          | None => None
          end
      | None => None
      end
  | None => None
  end.

(** Modelled from the spec: [marshalTunnelData] is not among the source
    files; it is the encoder of the framing above. *)
Definition marshalTunnelData (data : tunnelData) : list byte :=
  putString (Host data) ++ putUint32 (Port data)
    ++ putString (OriginAddress data) ++ putUint32 (OriginPort data).

Definition marshalForwardRequest (req : forwardRequest) : list byte :=
  putString (fwd_Host req) ++ putUint32 (fwd_Port req).

(* ===================================================================== *)
(** ** Global requests                                                   *)
(* ===================================================================== *)

Record Request : Type := mkRequest {
  ReqType : string;
  WantReply : bool;
  Payload : list byte
}.

(** [handleRequest] touches only its own connection.  The result is the
    connection afterwards and the argument of [request.Reply], which is
    called only when the client asked for a reply. *)
Definition handleRequest (c : Connection) (request : Request)
  : Connection * option bool :=
  let '(ok, c') :=
    if String.eqb (ReqType request) "tcpip-forward" then
      match unmarshalForwardRequest (Payload request) with
      | None => (false, c)
      | Some req =>
          if fwd_Port req =? 0 then (false, c)
          else match registerService c (fwd_Host req) (uint16 (fwd_Port req)) with
               | (Some _, c1) => (false, c1)
               | (None, c1) => (true, c1)
               end
      end
    else if String.eqb (ReqType request) "cancel-tcpip-forward" then
      match unmarshalForwardRequest (Payload request) with
      | None => (false, c)
      | Some req =>
          match deregisterService c (fwd_Host req) (uint16 (fwd_Port req)) with
          | (Some _, c1) => (false, c1)
          | (None, c1) => (true, c1)
          end
      end
    else (false, c)
  in (c', if WantReply request then Some ok else None).

(* ===================================================================== *)
(** ** The gateway and the heap of connections                           *)
(* ===================================================================== *)

Record Gateway : Type := mkGateway {
  sessionsIndex : gmap string (list nat);
  sessionsList : list nat
}.

(** What the ssh library is asked to do, in order. *)
Inductive Event : Type :=
  | EvOpenChannel (target : nat) (channelType : string) (extraData : list byte)
  | EvAccept (c : nat)
  | EvSessionClose (s : nat)
  | EvTunnelClose (t : nat)
  | EvConnClose (c : nat).

(** The connections allocated so far, the one gateway, the trace, and the
    next free pointers.  Every [*Connection] of the program points into
    the heap; a method called through a pointer outside it leaves the
    world as it is. *)
Record World : Type := mkWorld {
  heap : gmap nat Connection;
  gateway : Gateway;
  trace : list Event;
  nextConn : nat;
  nextTunnel : nat
}.

Definition set_heap (w : World) (h : gmap nat Connection) : World :=
  mkWorld h (gateway w) (trace w) (nextConn w) (nextTunnel w).

Definition set_gateway (w : World) (g : Gateway) : World :=
  mkWorld (heap w) g (trace w) (nextConn w) (nextTunnel w).

Definition emit (evs : list Event) (w : World) : World :=
  mkWorld (heap w) (gateway w) (trace w ++ evs) (nextConn w) (nextTunnel w).

(** [g.sessionsIndex[user]]: a missing key reads as the nil slice. *)
Definition index_at (g : Gateway) (u : string) : list nat :=
  default [] (sessionsIndex g !! u).

(** The gateway built by [NewGateway], with nothing else allocated. *)
Definition NewGateway : Gateway := mkGateway ∅ [].

Definition initWorld : World := mkWorld ∅ NewGateway [] 0 0.

(** [newConnection]: [admin] is the presence of the
    [permit-port-forwarding] extension. *)
Definition newConnection (name : string) (extensions : gmap string string) (now : Z)
  : Connection :=
  let admin := match extensions !! "permit-port-forwarding" with
               | Some _ => true
               | None => false
               end in
  mkConnection name [] [] ∅ false now admin.

(** [AddSession]: prepend to the user's list and to the flat list. *)
Definition AddSession (s : nat) (w : World) : World :=
  match heap w !! s with
  | None => w
  | Some conn =>
      let g := gateway w in
      set_gateway w
        (mkGateway (<[user conn := s :: index_at g (user conn)]> (sessionsIndex g))
                   (s :: sessionsList g))
  end.

(** The loops of [DeleteSession] that keep every pointer other than [s]. *)
Definition remove_ptr (s : nat) (l : list nat) : list nat :=
  List.filter (fun x => negb (Nat.eqb x s)) l.

Definition DeleteSession (s : nat) (w : World) : World :=
  match heap w !! s with
  | None => w
  | Some conn =>
      let g := gateway w in
      set_gateway w
        (mkGateway (<[user conn := remove_ptr s (index_at g (user conn))]> (sessionsIndex g))
                   (remove_ptr s (sessionsList g)))
  end.

(** [session.LookupService]: [lookupService] through the pointer. *)
Definition LookupService (h : gmap nat Connection) (s : nat) (host : string) (port : Z)
  : bool :=
  match h !! s with
  | Some conn => lookupService conn host port
  | None => false
  end.

(** The inner loop of [LookupSessionService] over one user's list. *)
Fixpoint scanSessions (h : gmap nat Connection) (l : list nat) (host : string) (port : Z)
  : option nat :=
  match l with
  | [] => None
  | s :: rest =>
      if LookupService h s host port then Some s
      else scanSessions h rest host port
  end.

(** The outer loop, [for i := range parts], over the remaining indices. *)
Fixpoint lookupLoop (w : World) (parts : list string) (port : Z) (indices : list nat)
  : option nat * string * Z :=
  match indices with
  | [] => (None, EmptyString, 0)
  | i :: rest =>
      let host := Join (take i parts) dot in
      let user := Join (drop i parts) dot in
      match scanSessions (heap w) (index_at (gateway w) user) host port with
      | Some s => (Some s, host, port)
      | None => lookupLoop w parts port rest
      end
  end.

Definition LookupSessionService (w : World) (host : string) (port : Z)
  : option nat * string * Z :=
  let parts := Split host dot in
  lookupLoop w parts port (seq 0 (length parts)).

(** [connection.go] reaches the same registry under the later names. *)
Definition lookupConnectionService := LookupSessionService.
Definition deleteConnection := DeleteSession.
Definition AddConnection := AddSession.

(** [Sessions]: a copy of the flat list. *)
Definition Sessions (w : World) : list nat := sessionsList (gateway w).

(** [HandleConnection] after a successful handshake: allocate the
    connection and register it.  The result is the new pointer. *)
Definition HandleConnection (name : string) (extensions : gmap string string) (now : Z)
    (w : World) : nat * World :=
  let p := nextConn w in
  let w1 := mkWorld (<[p := newConnection name extensions now]> (heap w))
                    (gateway w) (trace w) (S p) (nextTunnel w) in
  (p, AddSession p w1).

(* ===================================================================== *)
(** ** New channels                                                      *)
(* ===================================================================== *)

Record NewChannel : Type := mkNewChannel {
  ChannelType : string;
  ExtraData : list byte
}.

(** The answers of the peer and of the ssh library: whether
    [conn.OpenChannel] and [newChannel.Accept] succeed. *)
Record ChannelEnv : Type := mkChannelEnv {
  openOk : bool;
  acceptOk : bool
}.

(** [ssh.RejectionReason]. *)
Definition Prohibited : Z := 1.
Definition ConnectionFailed : Z := 2.
Definition UnknownChannelType : Z := 3.
Definition ResourceShortage : Z := 4.

(** A field read through a connection pointer. *)
Definition admin_of (w : World) (c : nat) : bool :=
  match heap w !! c with
  | Some conn => admin conn
  | None => false
  end.

(** [openTunnel]: ask the client behind [c] for a channel; on success
    allocate the tunnel and prepend it to [c.tunnels]. *)
Definition openTunnel (c : nat) (channelType : string) (extraData : list byte)
    (ok : bool) (w : World) : option nat * World :=
  let w1 := emit [EvOpenChannel c channelType extraData] w in
  if ok then
    let t := nextTunnel w1 in
    (Some t, mkWorld (alter (fun conn => addTunnel conn t) c (heap w1))
                     (gateway w1) (trace w1) (nextConn w1) (S t))
  else (None, w1).

Definition handleTunnelChannel (c : nat) (newChannel : NewChannel) (env : ChannelEnv)
    (w : World) : (bool * Z * string) * World :=
  match unmarshalTunnelData (ExtraData newChannel) with
  | None => ((false, UnknownChannelType, "failed to decode extra data"%string), w)
  | Some data =>
      match lookupConnectionService w (Host data) (uint16 (Port data)) with
      | (None, _, _) =>
          ((false, ConnectionFailed, "service not found or not online"%string), w)
      | (Some connection, host, port) =>
          if negb (admin_of w c)
          then ((false, Prohibited, "permission denied"%string), w)
          else
            let data2 := mkTunnelData host (uint32 port)
                                      (OriginAddress data) (OriginPort data) in
            match openTunnel connection "forwarded-tcpip" (marshalTunnelData data2)
                             (openOk env) w with
            | (None, w1) => ((false, ConnectionFailed, "failed to connect"%string), w1)
            | (Some tunnel2, w1) =>
                let w2 := emit [EvAccept c] w1 in
                if acceptOk env then
                  let tunnel := nextTunnel w2 in
                  ((true, 0, EmptyString),
                   mkWorld (alter (fun conn => addTunnel conn tunnel) c (heap w2))
                           (gateway w2) (trace w2) (nextConn w2) (S tunnel))
                else ((true, 0, EmptyString), emit [EvTunnelClose tunnel2] w2)
            end
      end
  end.

(* ===================================================================== *)
(** ** Close and the scavenger                                           *)
(* ===================================================================== *)

(** [Close]: once only; leave the gateway first, then close the children
    and the transport. *)
Definition Close (c : nat) (w : World) : World :=
  match heap w !! c with
  | None => w
  | Some conn =>
      if closeOnce conn then w
      else
        let w1 := set_heap w (<[c := set_closeOnce conn true]> (heap w)) in
        let w2 := deleteConnection c w1 in
        let w3 := emit (map EvSessionClose (sessions conn)) w2 in
        let w4 := emit (map EvTunnelClose (tunnels conn)) w3 in
        emit [EvConnClose c] w4
  end.

(** [time.Duration] is a 64-bit count of nanoseconds; [Time.Sub] stops
    at its bounds. *)
Definition maxDuration : Z := 9223372036854775807.
Definition minDuration : Z := -9223372036854775808.

Definition Sub (t u : Z) : Z := Z.max minDuration (Z.min maxDuration (t - u)).

(** [time.Since(t)] when the clock reads [now]. *)
Definition Since (now t : Z) : Z := Sub now t.

Definition Used (w : World) (s : nat) : Z :=
  match heap w !! s with
  | Some conn => used conn
  | None => 0
  end.

(** The loop of [ScavengeSessions] over the copied list; [clock i] is
    what [time.Now] reads in iteration [i]. *)
Fixpoint scavengeLoop (timeout : Z) (clock : nat -> Z) (i : nat) (snapshot : list nat)
    (w : World) : World :=
  match snapshot with
  | [] => w
  | s :: rest =>
      let idle := Since (clock i) (Used w s) in
      let w' := if idle >? timeout then Close s w else w in
      scavengeLoop timeout clock (S i) rest w'
  end.

Definition ScavengeSessions (timeout : Z) (clock : nat -> Z) (w : World) : World :=
  scavengeLoop timeout clock 0 (Sessions w) w.

Definition ScavengeConnections := ScavengeSessions.

(** What it is for a connection to be registered under a user, and to
    advertise a service. *)
Definition registered (w : World) (c : nat) (u : string) : Prop :=
  c ∈ index_at (gateway w) u.

Definition advertises (w : World) (c : nat) (host : string) (port : Z) : Prop :=
  LookupService (heap w) c host port = true.

(** Partition [i] of the split host: the first [i] labels name the
    service host, the remaining ones the user. *)
Definition hostAt (parts : list string) (i : nat) : string := Join (take i parts) dot.
Definition userAt (parts : list string) (i : nat) : string := Join (drop i parts) dot.

(** No connection of the user of partition [i] advertises the service. *)
Definition noneAt (w : World) (port : Z) (parts : list string) (i : nat) : Prop :=
  forall j s, index_at (gateway w) (userAt parts i) !! j = Some s ->
              ~ advertises w s (hostAt parts i) port.

(** [handleRequest] called through the pointer, as the request pump
    does. *)
Definition handleRequestAt (c : nat) (request : Request) (w : World)
  : World * option bool :=
  match heap w !! c with
  | Some conn =>
      let '(conn', reply) := handleRequest conn request in
      (set_heap w (<[c := conn']> (heap w)), reply)
  | None => (w, None)
  end.

(** The argument of [request.Reply], when the client asked for one. *)
Definition replyOf (request : Request) (ok : bool) : option bool :=
  if WantReply request then Some ok else None.

(** The fields of a tunnel payload fit their wire widths. *)
Definition wellFormed (data : tunnelData) : Prop :=
  Z.of_nat (String.length (Host data)) < 4294967296 /\
  0 <= Port data < 4294967296 /\
  Z.of_nat (String.length (OriginAddress data)) < 4294967296 /\
  0 <= OriginPort data < 4294967296.

(** The gateway invariant: the index and the flat list hold the same
    connections, each indexed under its own user name and not yet
    closed; the flat list has no pointer twice; pointers below
    [nextConn] only. *)
Record wf (w : World) : Prop := mkWf {
  wf_index : forall u s, registered w s u ->
    exists conn, heap w !! s = Some conn /\ user conn = u /\ closeOnce conn = false /\
                 s ∈ sessionsList (gateway w);
  wf_list : forall s, s ∈ sessionsList (gateway w) ->
    exists conn, heap w !! s = Some conn /\ registered w s (user conn);
  wf_nodup : NoDup (sessionsList (gateway w));
  wf_fresh : forall s, is_Some (heap w !! s) -> (s < nextConn w)%nat
}.

(** What [Close] asks of the ssh library once the connection has left
    the gateway. *)
Definition teardownEvents (c : nat) (conn : Connection) : list Event :=
  map EvSessionClose (sessions conn) ++ map EvTunnelClose (tunnels conn) ++ [EvConnClose c].

(** ** Scenarios *)

Definition forwardPayload (host : string) (port : Z) : list byte :=
  marshalForwardRequest (mkForwardRequest host port).

Definition tcpipForward (host : string) (port : Z) : Request :=
  mkRequest "tcpip-forward" true (forwardPayload host port).

Definition cancelTcpipForward (host : string) (port : Z) : Request :=
  mkRequest "cancel-tcpip-forward" true (forwardPayload host port).

Definition directTcpip (host : string) (port : Z) (origin : string) (oport : Z)
  : NewChannel :=
  mkNewChannel "direct-tcpip" (marshalTunnelData (mkTunnelData host port origin oport)).

Definition permitForwarding : gmap string string :=
  {[ "permit-port-forwarding"%string := EmptyString ]}.

(** A client connects as [name] and advertises [(host, port)]. *)
Definition connectAndForward (name : string) (extensions : gmap string string)
    (host : string) (port : Z) (w : World) : World :=
  let '(p, w1) := HandleConnection name extensions 0 w in
  fst (handleRequestAt p (tcpipForward host port) w1).

(** One client, [alice], advertising [("api", 80)]: pointer 0. *)
Definition world_alice : World :=
  connectAndForward "alice" permitForwarding "api" 80 initWorld.

(** [alice] as above, and [api.alice] advertising [("", 80)]: pointer 1. *)
Definition world_shadow : World :=
  connectAndForward "api.alice" ∅ EmptyString 80 world_alice.

(** [alice] as above, and [guest] connected without the forwarding
    permission: pointer 1. *)
Definition world_guest : World :=
  snd (HandleConnection "guest" ∅ 0 world_alice).

(** [alice] last used at 0 (pointer 0) and [bob] last used at 500
    (pointer 1), in nanoseconds. *)
Definition world_idle : World :=
  snd (HandleConnection "bob" ∅ 500 (snd (HandleConnection "alice" ∅ 0 initWorld))).

(** A client with the empty user name advertising [("api", 80)]. *)
Definition world_anonymous : World :=
  connectAndForward EmptyString ∅ "api" 80 initWorld.

(* ===================================================================== *)
(** ** The children of a connection and its published services          *)
(* ===================================================================== *)

Definition set_sessions (c : Connection) (ss : list nat) : Connection :=
  mkConnection (user c) ss (tunnels c) (services c) (closeOnce c) (used c) (admin c).

Definition uint64 (n : Z) : Z := n mod 18446744073709551616.

(** The two [uint64] counters of [Connection], [sessionsClosed] and
    [tunnelsClosed], kept beside the record above. *)
Record closedCounters : Type := mkClosedCounters {
  sessionsClosed : Z;
  tunnelsClosed : Z
}.

Definition addSession (c : Connection) (s : nat) : Connection :=
  set_sessions c (s :: sessions c).

(** [deleteSession]: keep the sessions other than [s]; count one more
    closed session. *)
Definition deleteSession (c : Connection) (k : closedCounters) (s : nat)
  : Connection * closedCounters :=
  (set_sessions c (remove_ptr s (sessions c)),
   mkClosedCounters (uint64 (sessionsClosed k + 1)) (tunnelsClosed k)).

(** [deleteTunnel]: the same for tunnels. *)
Definition deleteTunnel (c : Connection) (k : closedCounters) (t : nat)
  : Connection * closedCounters :=
  (set_tunnels c (remove_ptr t (tunnels c)),
   mkClosedCounters (sessionsClosed k) (uint64 (tunnelsClosed k + 1))).

(** The inner loop of [Services] over the ports of one host: append
    every port whose flag is set to [services[host]]. *)
Definition collectPorts (host : string) (acc : gmap string (list Z))
    (ports : list (Z * bool)) : gmap string (list Z) :=
  foldl (fun (acc : gmap string (list Z)) (po : Z * bool) =>
           if snd po then <[host := default [] (acc !! host) ++ [fst po]]> acc else acc)
        acc ports.

(** [Services]: the advertised ports of every host.  Go ranges over a
    map in no fixed order; here both loops follow [map_to_list]. *)
Definition Services (c : Connection) : gmap string (list Z) :=
  foldl (fun (acc : gmap string (list Z)) (hp : string * gmap Z bool) =>
           collectPorts (fst hp) acc (map_to_list (snd hp)))
        ∅ (map_to_list (services c)).

(* ===================================================================== *)
(** ** Session channels and the channel dispatcher                       *)
(* ===================================================================== *)

(** [handleSessionChannel].  The pointer of the new session comes from
    the counter that also numbers the tunnels. *)
Definition handleSessionChannel (c : nat) (newChannel : NewChannel) (env : ChannelEnv)
    (w : World) : (bool * Z * string) * World :=
  if (0 <? length (ExtraData newChannel))%nat
  then ((false, Prohibited, "extra data not allowed"%string), w)
  else
    let w1 := emit [EvAccept c] w in
    if acceptOk env then
      let session := nextTunnel w1 in
      ((true, 0, EmptyString),
       mkWorld (alter (fun conn => addSession conn session) c (heap w1))
               (gateway w1) (trace w1) (nextConn w1) (S session))
    else ((true, 0, EmptyString), w1).

(** What has become of an incoming channel when [handleChannel]
    returns: left to its handler, or accepted and closed at once with
    the reason only logged, or the [Accept] of that rejection failed. *)
Inductive ChannelFate : Type :=
  | Handled
  | AcceptedThenClosed (rejection : Z) (message : string)
  | RejectFailed (rejection : Z) (message : string).

(** [handleChannel]: dispatch on the channel type; a channel that no
    handler took is rejected by accepting and closing it. *)
Definition handleChannel (c : nat) (newChannel : NewChannel) (env : ChannelEnv)
    (w : World) : ChannelFate * World :=
  let '((ok, rejection, message), w1) :=
    if String.eqb (ChannelType newChannel) "session"
    then handleSessionChannel c newChannel env w
    else if String.eqb (ChannelType newChannel) "direct-tcpip"
    then handleTunnelChannel c newChannel env w
    else ((false, UnknownChannelType, "unknown channel type"%string), w)
  in
  if ok then (Handled, w1)
  else
    let w2 := emit [EvAccept c] w1 in
    if acceptOk env then (AcceptedThenClosed rejection message, w2)
    else (RejectFailed rejection message, w2).

(* ===================================================================== *)
(** ** Closing the gateway; the timeout of the scavenger                 *)
(* ===================================================================== *)

(** The loop of [Gateway.Close] over the copied list. *)
Fixpoint closeAll (snapshot : list nat) (w : World) : World :=
  match snapshot with
  | [] => w
  | s :: rest => closeAll rest (Close s w)
  end.

(** [Gateway.Close]; [done] is the flag of the gateway's [sync.Once]
    before the call, the result carries the flag after it. *)
Definition GatewayClose (done : bool) (w : World) : bool * World :=
  if done then (true, w) else (true, closeAll (Sessions w) w).

Definition int64 (n : Z) : Z :=
  (n + 9223372036854775808) mod 18446744073709551616 - 9223372036854775808.

(** The timeout [Run] hands to the scavenger,
    [time.Duration(c.Int("idle-timeout")) * time.Second], for a 64-bit
    [int]. *)
Definition idleTimeout (seconds : Z) : Z := int64 (int64 seconds * 1000000000).

(* ===================================================================== *)
(** * Properties                                                         *)
(* ===================================================================== *)

(** ** Split and Join *)

Section SplitJoin.
Variable sep : ascii.

Lemma Split_not_nil (s : string) : Split s sep <> [].
Proof.
  induction s as [|ch rest IH]; simpl; [discriminate|].
  destruct (Ascii.eqb ch sep); [discriminate|].
  destruct (Split rest sep); discriminate.
Qed.

Lemma Split_length_pos (s : string) : (0 < length (Split s sep))%nat.
Proof.
  pose proof (Split_not_nil s). destruct (Split s sep); simpl; [congruence|lia].
Qed.

Lemma Join_cons (p : string) (ps : list string) :
  ps <> [] -> Join (p :: ps) sep = p +:+ String sep (Join ps sep).
Proof. destruct ps; [congruence|reflexivity]. Qed.

Lemma Join_Split (s : string) : Join (Split s sep) sep = s.
Proof.
  induction s as [|ch rest IH]; simpl; [reflexivity|].
  destruct (Ascii.eqb_spec ch sep) as [->|Hne].
  - rewrite Join_cons by apply Split_not_nil. simpl. now rewrite IH.
  - pose proof (Split_not_nil rest) as Hnil.
    destruct (Split rest sep) as [|p ps]; [congruence|].
    destruct ps as [|q qs]; simpl in *; now rewrite <- IH.
Qed.

Lemma Split_app (h u : string) :
  Split (h +:+ String sep u) sep = Split h sep ++ Split u sep.
Proof.
  induction h as [|ch rest IH]; simpl.
  - now rewrite Ascii.eqb_refl.
  - rewrite IH. destruct (Ascii.eqb ch sep); [reflexivity|].
    pose proof (Split_not_nil rest) as Hnil.
    destruct (Split rest sep); [congruence|reflexivity].
Qed.

Lemma append_assoc (a b c : string) : (a +:+ b) +:+ c = a +:+ (b +:+ c).
Proof.
  induction a as [|ch a IH]; [reflexivity|].
  change (String ch ((a +:+ b) +:+ c) = String ch (a +:+ (b +:+ c))).
  now rewrite IH.
Qed.

Lemma Join_app (ps qs : list string) :
  ps <> [] -> qs <> [] ->
  Join (ps ++ qs) sep = Join ps sep +:+ String sep (Join qs sep).
Proof.
  intros Hp Hq. induction ps as [|p ps IH]; [congruence|].
  destruct ps as [|p' ps'].
  - simpl. destruct qs; [congruence|reflexivity].
  - change ((p :: p' :: ps') ++ qs) with (p :: ((p' :: ps') ++ qs)).
    rewrite Join_cons by discriminate.
    rewrite IH by discriminate.
    rewrite (Join_cons p (p' :: ps')) by discriminate.
    now rewrite append_assoc.
Qed.

Lemma length_append (a b : string) :
  String.length (a +:+ b) = (String.length a + String.length b)%nat.
Proof.
  induction a as [|ch a IH]; [reflexivity|].
  change (S (String.length (a +:+ b)) = S (String.length a + String.length b)).
  now rewrite IH.
Qed.

(** The service host that a lookup returns is never longer than the
    host it was given. *)
Lemma Join_take_length (i : nat) (s : string) :
  (String.length (Join (take i (Split s sep)) sep) <= String.length s)%nat.
Proof.
  rewrite <- (Join_Split s) at 2.
  rewrite <- (take_drop i (Split s sep)) at 2.
  destruct (take i (Split s sep)) as [|p ps] eqn:Et; [simpl; lia|].
  destruct (drop i (Split s sep)) as [|q qs] eqn:Ed.
  - rewrite app_nil_r. lia.
  - rewrite Join_app by discriminate. rewrite length_append. lia.
Qed.
End SplitJoin.

(** ** The two loops of the lookup *)

Section LookupLoops.
Variable w : World.
Variable port : Z.

(** The inner loop returns the first pointer of the list whose
    connection advertises the service. *)
Lemma scanSessions_first (l : list nat) (host : string) :
  match scanSessions (heap w) l host port with
  | Some s =>
      exists j, l !! j = Some s /\ advertises w s host port /\
        forall j' s', (j' < j)%nat -> l !! j' = Some s' -> ~ advertises w s' host port
  | None => forall j s', l !! j = Some s' -> ~ advertises w s' host port
  end.
Proof.
  unfold advertises. induction l as [|s rest IH]; simpl.
  - intros j s' H. discriminate.
  - destruct (LookupService (heap w) s host port) eqn:Es.
    + exists 0%nat. split; [reflexivity|]. split; [exact Es|]. intros; lia.
    + destruct (scanSessions (heap w) rest host port) as [s0|].
      * destruct IH as (j & Hj & Hs0 & Hbefore).
        exists (S j). split; [exact Hj|]. split; [exact Hs0|].
        intros [|j'] s' Hlt Hs'; simpl in Hs'.
        -- injection Hs' as <-. congruence.
        -- apply (Hbefore j'); [lia|exact Hs'].
      * intros [|j] s' Hs'; simpl in Hs'.
        -- injection Hs' as <-. congruence.
        -- now apply (IH j).
Qed.

Lemma lookupLoop_first (parts : list string) (indices : list nat) :
  match lookupLoop w parts port indices with
  | (Some s, host, p) =>
      exists k i j, indices !! k = Some i /\ host = hostAt parts i /\ p = port /\
        index_at (gateway w) (userAt parts i) !! j = Some s /\
        advertises w s host port /\
        (forall j' s', (j' < j)%nat ->
           index_at (gateway w) (userAt parts i) !! j' = Some s' ->
           ~ advertises w s' host port) /\
        (forall k' i', (k' < k)%nat -> indices !! k' = Some i' -> noneAt w port parts i')
  | (None, host, p) =>
      host = EmptyString /\ p = 0 /\
      forall k i, indices !! k = Some i -> noneAt w port parts i
  end.
Proof.
  induction indices as [|i rest IH]; simpl.
  - split; [reflexivity|]. split; [reflexivity|]. intros k i H. discriminate.
  - pose proof (scanSessions_first (index_at (gateway w) (Join (drop i parts) dot))
                  (Join (take i parts) dot)) as Hscan.
    destruct (scanSessions (heap w) (index_at (gateway w) (Join (drop i parts) dot))
                (Join (take i parts) dot) port) as [s|].
    + destruct Hscan as (j & Hj & Hs & Hbefore).
      exists 0%nat, i, j. repeat split; try assumption. intros; lia.
    + destruct (lookupLoop w parts port rest) as [[[s|] host] p].
      * destruct IH as (k & i0 & j & Hk & Hhost & Hp & Hj & Hs & Hin & Hout).
        exists (S k), i0, j. repeat split; try assumption.
        intros [|k'] i' Hlt Hi'; simpl in Hi'.
        -- injection Hi' as <-. exact Hscan.
        -- apply (Hout k'); [lia|exact Hi'].
      * destruct IH as (Hhost & Hp & Hall). repeat split; try assumption.
        intros [|k] i' Hi'; simpl in Hi'.
        -- injection Hi' as <-. exact Hscan.
        -- now apply (Hall k).
Qed.
End LookupLoops.

(** ** Order of the lookup *)

Lemma AddSession_index (w : World) (s : nat) (conn : Connection) :
  heap w !! s = Some conn ->
  index_at (gateway (AddSession s w)) (user conn)
  = s :: index_at (gateway w) (user conn).
Proof.
  intros Hs. unfold AddSession. rewrite Hs. unfold index_at at 1. simpl.
  now rewrite lookup_insert_eq.
Qed.

Lemma AddSession_index_other (w : World) (s : nat) (conn : Connection) (u : string) :
  heap w !! s = Some conn -> u <> user conn ->
  index_at (gateway (AddSession s w)) u = index_at (gateway w) u.
Proof.
  intros Hs Hu. unfold AddSession. rewrite Hs. unfold index_at. simpl.
  now rewrite lookup_insert_ne by congruence.
Qed.

Lemma AddSession_list (w : World) (s : nat) (conn : Connection) :
  heap w !! s = Some conn ->
  sessionsList (gateway (AddSession s w)) = s :: sessionsList (gateway w).
Proof. intros Hs. unfold AddSession. now rewrite Hs. Qed.

Lemma LookupSessionService_first (w : World) (full : string) (port : Z) :
  let parts := Split full dot in
  match LookupSessionService w full port with
  | (Some s, host, p) =>
      exists i j, (i < length parts)%nat /\ host = hostAt parts i /\ p = port /\
        index_at (gateway w) (userAt parts i) !! j = Some s /\
        advertises w s host port /\
        (forall j' s', (j' < j)%nat ->
           index_at (gateway w) (userAt parts i) !! j' = Some s' ->
           ~ advertises w s' host port) /\
        (forall i', (i' < i)%nat -> noneAt w port parts i')
  | (None, host, p) =>
      host = EmptyString /\ p = 0 /\
      forall i, (i < length parts)%nat -> noneAt w port parts i
  end.
Proof.
  intros parts.
  unfold LookupSessionService. fold parts.
  pose proof (lookupLoop_first w port parts (seq 0 (length parts))) as H.
  destruct (lookupLoop w parts port (seq 0 (length parts))) as [[[s|] host] p].
  - destruct H as (k & i & j & Hk & Hhost & Hp & Hj & Hs & Hin & Hout).
    apply lookup_seq in Hk as [-> Hlt]. simpl in *.
    exists k, j. repeat split; try assumption.
    intros i' Hi'. apply (Hout i' i'); [exact Hi'|].
    apply lookup_seq. split; [reflexivity|lia].
  - destruct H as (Hhost & Hp & Hall). repeat split; try assumption.
    intros i Hi. apply (Hall i i). apply lookup_seq. split; [reflexivity|exact Hi].
Qed.

(** C4. The lookup walks the partitions of the dot-split host by
    increasing number of host labels (so the longest user suffix comes
    first) and, inside a partition, the user's list from its head; it
    returns the first connection advertising the service with that
    partition's host, and the nil triple when there is none.  A
    connection that is added becomes the head of its user's list. *)
Theorem lookup_first_in_order (w : World) (full : string) (port : Z) :
  let parts := Split full dot in
  match LookupSessionService w full port with
  | (Some s, host, p) =>
      exists i j, (i < length parts)%nat /\ host = hostAt parts i /\ p = port /\
        index_at (gateway w) (userAt parts i) !! j = Some s /\
        advertises w s host port /\
        (forall j' s', (j' < j)%nat ->
           index_at (gateway w) (userAt parts i) !! j' = Some s' ->
           ~ advertises w s' host port) /\
        (forall i', (i' < i)%nat -> noneAt w port parts i')
  | (None, host, p) =>
      host = EmptyString /\ p = 0 /\
      forall i, (i < length parts)%nat -> noneAt w port parts i
  end
  /\ forall s conn, heap w !! s = Some conn ->
       index_at (gateway (AddSession s w)) (user conn)
       = s :: index_at (gateway w) (user conn).
Proof.
  split; [apply LookupSessionService_first|intros s conn; apply AddSession_index].
Qed.

Lemma lookup_first_in_order_witness :
  let w0 := set_heap initWorld {[ 0%nat := newConnection "alice" ∅ 0 ]} in
  index_at (gateway (AddSession 0 w0)) "alice" = 0%nat :: index_at (gateway w0) "alice".
Proof.
  intros w0.
  apply (proj2 (lookup_first_in_order w0 "alice" 22) 0%nat (newConnection "alice" ∅ 0)).
  vm_compute. reflexivity.
Defined.

(** ** The directory finds what is advertised *)

(** C1 as stated fails: [alice] (pointer 0) is registered and advertises
    [("api", 80)], yet the lookup of [user + "." + host], that is of
    ["alice.api"], finds nothing, since the labels after the split point
    are read as the user. *)
Lemma lookupConnectionService_reverse_order_misses :
  (exists conn, heap world_alice !! 0%nat = Some conn /\ user conn = "alice"%string /\
     registered world_alice 0 (user conn) /\ lookupService conn "api" 80 = true)
  /\ lookupConnectionService world_alice ("alice" +:+ "." +:+ "api") 80
     = (None, EmptyString, 0).
Proof.
  split; [|vm_compute; reflexivity].
  eexists. split; [vm_compute; reflexivity|].
  split; [reflexivity|]. split; [|vm_compute; reflexivity].
  unfold registered. vm_compute. constructor.
Qed.

(** With an empty user name the bare host is not found either: the last
    label is always read as the user. *)
Example lookupConnectionService_empty_user_misses :
  (exists conn, heap world_anonymous !! 0%nat = Some conn /\ user conn = EmptyString /\
     lookupService conn "api" 80 = true)
  /\ lookupConnectionService world_anonymous "api" 80 = (None, EmptyString, 0)
  /\ lookupConnectionService world_anonymous ("api" +:+ ".") 80 = (Some 0%nat, "api"%string, 80).
Proof.
  split; [|split; vm_compute; reflexivity].
  eexists. split; [vm_compute; reflexivity|]. split; reflexivity.
Qed.

(** A user whose name covers more labels is asked first, for a shorter
    host. *)
Example lookupConnectionService_longer_user_first :
  lookupConnectionService world_shadow ("api" +:+ "." +:+ "alice") 80
  = (Some 1%nat, EmptyString, 80)
  /\ LookupService (heap world_shadow) 1 "api" 80 = false
  /\ LookupService (heap world_shadow) 0 "api" 80 = true.
Proof. repeat split; vm_compute; reflexivity. Qed.

Lemma partition_at_host (host name : string) :
  let parts := Split (host +:+ String dot name) dot in
  let i0 := length (Split host dot) in
  (i0 < length parts)%nat /\ hostAt parts i0 = host /\ userAt parts i0 = name.
Proof.
  simpl. rewrite Split_app. unfold hostAt, userAt.
  rewrite take_app_length, drop_app_length, !Join_Split, length_app.
  pose proof (Split_length_pos dot name). repeat split; lia.
Qed.

Lemma partition_before_host (host name : string) (i : nat) :
  (i < length (Split host dot))%nat ->
  hostAt (Split (host +:+ String dot name) dot) i = hostAt (Split host dot) i.
Proof.
  intros Hi. unfold hostAt. rewrite Split_app.
  now rewrite take_app_le by lia.
Qed.

(** C1, amended.  For a connection [c] registered under its user and a
    service [(host, port)] that it advertises, the lookup of
    [host + "." + user] (the host first, whether or not the user name is
    empty) finds a connection and returns it with the port and a service
    host [h]: either [h] is [host] and the connection is [c] or another
    connection of the same user advertising [(host, port)], or [h]
    consists of fewer labels of [host] and the connection belongs to the
    user named by all remaining labels; in both cases the connection
    advertises [(h, port)]. *)
Theorem lookupConnectionService_finds_advertised
    (w : World) (c : nat) (conn : Connection) (host : string) (port : Z) :
  heap w !! c = Some conn ->
  registered w c (user conn) ->
  lookupService conn host port = true ->
  let full := host +:+ String dot (user conn) in
  exists s h,
    lookupConnectionService w full port = (Some s, h, port) /\
    advertises w s h port /\
    ((h = host /\ registered w s (user conn)) \/
     (exists i, (i < length (Split host dot))%nat /\
        h = hostAt (Split host dot) i /\
        registered w s (userAt (Split full dot) i))).
Proof.
  intros Hc Hreg Hsvc full.
  destruct (partition_at_host host (user conn)) as (Hi0 & Hhost0 & Huser0).
  fold full in Hi0, Hhost0, Huser0.
  set (parts := Split full dot) in *. set (i0 := length (Split host dot)) in *.
  apply list_elem_of_lookup in Hreg as [jc Hjc].
  assert (Hadv : advertises w c host port).
  { unfold advertises, LookupService. now rewrite Hc. }
  pose proof (LookupSessionService_first w full port) as H. simpl in H. fold parts in H.
  unfold lookupConnectionService.
  destruct (LookupSessionService w full port) as [[[s|] h] p].
  - destruct H as (i & j & Hi & Hh & -> & Hj & Hs & _ & Hout).
    exists s, h. split; [reflexivity|]. split; [exact Hs|].
    destruct (Nat.lt_trichotomy i i0) as [Hlt|[->|Hgt]].
    + right. exists i. split; [exact Hlt|]. split.
      * rewrite Hh. apply partition_before_host. exact Hlt.
      * unfold registered. apply list_elem_of_lookup. now exists j.
    + left. split; [congruence|].
      unfold registered. apply list_elem_of_lookup. exists j. now rewrite <- Huser0.
    + exfalso. apply (Hout i0 Hgt jc c).
      * now rewrite Huser0.
      * now rewrite Hhost0.
  - destruct H as (_ & _ & Hall). exfalso. apply (Hall i0 Hi0 jc c).
    + now rewrite Huser0.
    + now rewrite Hhost0.
Qed.

Lemma lookupConnectionService_finds_advertised_witness :
  exists s h,
    lookupConnectionService world_shadow ("api" +:+ String dot "alice") 80
    = (Some s, h, 80) /\ advertises world_shadow s h 80.
Proof.
  destruct (lookupConnectionService_finds_advertised world_shadow 0
              (mkConnection "alice" [] [] {[ "api"%string := {[ 80 := true ]} ]} false 0 true)
              "api" 80) as (s & h & Hl & Ha & _).
  - vm_compute. reflexivity.
  - unfold registered. vm_compute. constructor.
  - vm_compute. reflexivity.
  - exists s, h. split; [exact Hl|exact Ha].
Defined.

(** ** The services of one connection *)

Section Services.
Implicit Types (c : Connection) (host : string) (port : Z).

Lemma set_services_same c : set_services c (services c) = c.
Proof. now destruct c. Qed.

Lemma lookupService_ports c host port :
  lookupService c host port = port_flag (ports_at (services c) host) port.
Proof.
  unfold lookupService, ports_at. destruct (services c !! host); reflexivity.
Qed.

Lemma registerService_ok c host port :
  lookupService c host port = false ->
  exists c', registerService c host port = (None, c') /\
             lookupService c' host port = true /\
             user c' = user c /\ admin c' = admin c.
Proof.
  intros Hfree. unfold registerService.
  assert (Hflag : port_flag (ports_at
            match services c !! host with
            | Some _ => services c
            | None => <[host:=∅]> (services c)
            end host) port = false).
  { unfold lookupService in Hfree. unfold ports_at.
    destruct (services c !! host) eqn:Eh.
    - now rewrite Eh.
    - now rewrite lookup_insert_eq. }
  rewrite Hflag. eexists. split; [reflexivity|]. split; [|split; reflexivity].
  unfold lookupService. simpl. rewrite lookup_insert_eq.
  unfold port_flag. now rewrite lookup_insert_eq.
Qed.

Lemma registerService_taken c host port :
  lookupService c host port = true ->
  registerService c host port = (Some ErrServiceAlreadyRegistered, c).
Proof.
  intros Htaken. unfold registerService. unfold lookupService in Htaken.
  destruct (services c !! host) as [ports|] eqn:Eh; [|discriminate].
  unfold ports_at. rewrite Eh. simpl. rewrite Htaken.
  now rewrite set_services_same.
Qed.

Lemma deregisterService_absent c host port :
  lookupService (snd (deregisterService c host port)) host port = false.
Proof.
  unfold deregisterService, lookupService.
  destruct (services c !! host) as [ports|] eqn:Eh; simpl.
  - rewrite lookup_insert_eq. unfold port_flag. now rewrite lookup_delete_eq.
  - now rewrite Eh.
Qed.

Lemma deregisterService_no_error c host port :
  fst (deregisterService c host port) = None.
Proof. unfold deregisterService. now destruct (services c !! host). Qed.

Lemma deregisterService_others c host port host' port' :
  (host', port') <> (host, port) ->
  lookupService (snd (deregisterService c host port)) host' port'
  = lookupService c host' port'.
Proof.
  intros Hne. unfold deregisterService, lookupService.
  destruct (services c !! host) as [ports|] eqn:Eh; simpl; [|reflexivity].
  destruct (decide (host' = host)) as [->|Hh].
  - rewrite lookup_insert_eq, Eh. unfold port_flag.
    rewrite lookup_delete_ne by congruence. reflexivity.
  - now rewrite lookup_insert_ne by congruence.
Qed.
End Services.

(** C5. [registerService] on a [(host, port)] that the connection
    already advertises returns the service-already-registered error and
    returns the connection as it was: the services map is unchanged and
    the service is still advertised. *)
Theorem registerService_again_fails (c : Connection) (host : string) (port : Z) :
  lookupService c host port = true ->
  fst (registerService c host port) = Some ErrServiceAlreadyRegistered /\
  services (snd (registerService c host port)) = services c /\
  snd (registerService c host port) = c /\
  lookupService (snd (registerService c host port)) host port = true.
Proof.
  intros Htaken. rewrite (registerService_taken c host port Htaken). simpl.
  repeat split; try reflexivity. exact Htaken.
Qed.

Lemma registerService_again_fails_witness :
  let c := snd (registerService (newConnection "alice" ∅ 0) "api" 80) in
  fst (registerService c "api" 80) = Some ErrServiceAlreadyRegistered /\
  services (snd (registerService c "api" 80)) = services c.
Proof.
  intros c.
  destruct (registerService_again_fails c "api" 80) as (He & Hs & _).
  - vm_compute. reflexivity.
  - split; [exact He|exact Hs].
Defined.

(** Registering twice in a row: the first call succeeds, the second
    fails and changes nothing. *)
Lemma registerService_twice (c c1 : Connection) (host : string) (port : Z) :
  registerService c host port = (None, c1) ->
  registerService c1 host port = (Some ErrServiceAlreadyRegistered, c1).
Proof.
  intros H1. apply registerService_taken.
  destruct (lookupService c host port) eqn:E.
  - rewrite (registerService_taken c host port E) in H1. discriminate.
  - destruct (registerService_ok c host port E) as (c' & Hr & Hl & _).
    rewrite Hr in H1. now injection H1 as <-.
Qed.

(** ** Global requests *)

Lemma handleRequest_forward (c : Connection) (request : Request) (req : forwardRequest) :
  ReqType request = "tcpip-forward"%string ->
  unmarshalForwardRequest (Payload request) = Some req ->
  handleRequest c request =
    if fwd_Port req =? 0 then (c, replyOf request false)
    else match registerService c (fwd_Host req) (uint16 (fwd_Port req)) with
         | (Some _, c1) => (c1, replyOf request false)
         | (None, c1) => (c1, replyOf request true)
         end.
Proof.
  intros Ht Hd. unfold handleRequest, replyOf. rewrite Ht, Hd.
  change ("tcpip-forward" =? "tcpip-forward")%string with true. cbv iota.
  destruct (fwd_Port req =? 0); [reflexivity|].
  destruct (registerService c (fwd_Host req) (uint16 (fwd_Port req))) as [[e|] c1];
    reflexivity.
Qed.

Lemma handleRequest_cancel (c : Connection) (request : Request) (req : forwardRequest) :
  ReqType request = "cancel-tcpip-forward"%string ->
  unmarshalForwardRequest (Payload request) = Some req ->
  handleRequest c request =
    (snd (deregisterService c (fwd_Host req) (uint16 (fwd_Port req))),
     replyOf request true).
Proof.
  intros Ht Hd. unfold handleRequest, replyOf. rewrite Ht, Hd.
  change ("cancel-tcpip-forward" =? "tcpip-forward")%string with false.
  change ("cancel-tcpip-forward" =? "cancel-tcpip-forward")%string with true.
  cbv iota.
  pose proof (deregisterService_no_error c (fwd_Host req) (uint16 (fwd_Port req))) as He.
  destruct (deregisterService c (fwd_Host req) (uint16 (fwd_Port req))) as [e c1].
  simpl in He. subst e. reflexivity.
Qed.

(** C6. A [cancel-tcpip-forward] request whose payload decodes is
    answered ok (the reply is sent when the client asked for one), and
    afterwards the connection does not advertise the decoded host with
    the port as [uint16]; [deregisterService] never returns an error,
    registered or not. *)
Theorem cancel_forward_always_ok (c : Connection) (request : Request) (req : forwardRequest) :
  ReqType request = "cancel-tcpip-forward"%string ->
  unmarshalForwardRequest (Payload request) = Some req ->
  snd (handleRequest c request) = (if WantReply request then Some true else None) /\
  lookupService (fst (handleRequest c request)) (fwd_Host req) (uint16 (fwd_Port req))
    = false /\
  (forall c0 host port, fst (deregisterService c0 host port) = None).
Proof.
  intros Ht Hd. rewrite (handleRequest_cancel c request req Ht Hd). simpl.
  split; [reflexivity|]. split; [apply deregisterService_absent|].
  intros; apply deregisterService_no_error.
Qed.

Lemma cancel_forward_always_ok_witness :
  let c := newConnection "alice" ∅ 0 in
  snd (handleRequest c (cancelTcpipForward "api" 80)) = Some true /\
  lookupService (fst (handleRequest c (cancelTcpipForward "api" 80))) "api" 80 = false.
Proof.
  intros c.
  destruct (cancel_forward_always_ok c (cancelTcpipForward "api" 80)
              (mkForwardRequest "api" 80)) as (Hr & Hl & _).
  - reflexivity.
  - vm_compute. reflexivity.
  - split; [exact Hr|exact Hl].
Defined.

(** C9. A [tcpip-forward] request whose decoded port is 0 is answered
    not-ok and leaves the connection, hence its services, as it was. *)
Theorem forward_port_zero_rejected (c : Connection) (request : Request) (req : forwardRequest) :
  ReqType request = "tcpip-forward"%string ->
  unmarshalForwardRequest (Payload request) = Some req ->
  fwd_Port req = 0 ->
  snd (handleRequest c request) = (if WantReply request then Some false else None) /\
  fst (handleRequest c request) = c /\
  services (fst (handleRequest c request)) = services c.
Proof.
  intros Ht Hd Hp. rewrite (handleRequest_forward c request req Ht Hd), Hp. simpl.
  repeat split; reflexivity.
Qed.

Lemma forward_port_zero_rejected_witness :
  let c := newConnection "alice" ∅ 0 in
  snd (handleRequest c (tcpipForward "x" 0)) = Some false /\
  fst (handleRequest c (tcpipForward "x" 0)) = c.
Proof.
  intros c.
  destruct (forward_port_zero_rejected c (tcpipForward "x" 0) (mkForwardRequest "x" 0))
    as (Hr & Hc & _).
  - reflexivity.
  - vm_compute. reflexivity.
  - reflexivity.
  - split; [exact Hr|exact Hc].
Defined.

(** C10. A [tcpip-forward] request whose decoded port [p] is positive
    registers the port [p mod 65536]: the handler's effect is that of
    [registerService] at that port, the reply is ok exactly when it
    returns no error, and then the connection advertises the host at
    [p mod 65536].  At [p = 65536] the guard against port 0 is passed and
    the port registered is 0. *)
Theorem forward_registers_port_mod_65536 :
  (forall (c : Connection) (request : Request) (req : forwardRequest),
     ReqType request = "tcpip-forward"%string ->
     unmarshalForwardRequest (Payload request) = Some req ->
     0 < fwd_Port req ->
     let r := registerService c (fwd_Host req) (fwd_Port req mod 65536) in
     fst (handleRequest c request) = snd r /\
     snd (handleRequest c request)
       = (if WantReply request then Some (bool_decide (fst r = None)) else None) /\
     (fst r = None ->
      lookupService (fst (handleRequest c request)) (fwd_Host req) (fwd_Port req mod 65536)
        = true))
  /\ (forall (c : Connection) (host : string) (request : Request),
        ReqType request = "tcpip-forward"%string ->
        unmarshalForwardRequest (Payload request) = Some (mkForwardRequest host 65536) ->
        lookupService c host 0 = false ->
        snd (handleRequest c request) = (if WantReply request then Some true else None) /\
        lookupService (fst (handleRequest c request)) host 0 = true).
Proof.
  split.
  - intros c request req Ht Hd Hpos r.
    rewrite (handleRequest_forward c request req Ht Hd).
    destruct (Z.eqb_spec (fwd_Port req) 0) as [E|_]; [lia|].
    unfold uint16. fold r.
    destruct (lookupService c (fwd_Host req) (fwd_Port req mod 65536)) eqn:El.
    + pose proof (registerService_taken _ _ _ El) as Hr. fold r in Hr. rewrite Hr. simpl.
      repeat split; try reflexivity. discriminate.
    + destruct (registerService_ok _ _ _ El) as (c' & Hr & Hl & _).
      fold r in Hr. rewrite Hr. simpl. repeat split; try reflexivity. intros _. exact Hl.
  - intros c host request Ht Hd Hfree.
    rewrite (handleRequest_forward c request _ Ht Hd). simpl.
    change (uint16 65536) with 0.
    destruct (registerService_ok _ _ _ Hfree) as (c' & Hr & Hl & _).
    rewrite Hr. simpl. split; [reflexivity|exact Hl].
Qed.

Lemma forward_registers_port_mod_65536_witness :
  let c := newConnection "alice" ∅ 0 in
  (fst (handleRequest c (tcpipForward "x" 65616)) = snd (registerService c "x" 80) /\
   lookupService (fst (handleRequest c (tcpipForward "x" 65616))) "x" 80 = true) /\
  unmarshalForwardRequest (Payload (tcpipForward "x" 65536))
    = Some (mkForwardRequest "x" 65536) /\
  snd (handleRequest c (tcpipForward "x" 65536)) = Some true /\
  lookupService (fst (handleRequest c (tcpipForward "x" 65536))) "x" 0 = true.
Proof.
  intros c. destruct forward_registers_port_mod_65536 as [Hmod Hzero]. split.
  - destruct (Hmod c (tcpipForward "x" 65616) (mkForwardRequest "x" 65616))
      as (Hc & _ & Hl).
    + reflexivity.
    + vm_compute. reflexivity.
    + simpl. lia.
    + split; [exact Hc|]. apply Hl. vm_compute. reflexivity.
  - split; [vm_compute; reflexivity|].
    apply (Hzero c "x"%string (tcpipForward "x" 65536)).
    + reflexivity.
    + vm_compute. reflexivity.
    + vm_compute. reflexivity.
Defined.

(** ** Wire codecs: decoding undoes encoding *)

Section Codecs.
Implicit Types (buf rest : list byte) (s : string) (n : Z).

Lemma byteZ_range (b : byte) : 0 <= byteZ b <= 255.
Proof. unfold byteZ. pose proof (Byte.to_N_bounded b). lia. Qed.

Lemma byteZ_of_Z (z : Z) : byteZ (byte_of_Z z) = z mod 256.
Proof.
  unfold byteZ, byte_of_Z.
  assert (Hr : 0 <= z mod 256 < 256) by (apply Z.mod_pos_bound; lia).
  destruct (Byte.of_N (Z.to_N (z mod 256))) as [b|] eqn:E; simpl.
  - apply Byte.to_of_N in E. rewrite E. lia.
  - apply Byte.of_N_None_iff in E. lia.
Qed.

Lemma parseUint32_range buf n rest :
  parseUint32 buf = Some (n, rest) -> 0 <= n < 4294967296.
Proof.
  destruct buf as [|b0 [|b1 [|b2 [|b3 tl]]]]; try discriminate.
  simpl. intros [= <- <-].
  pose proof (byteZ_range b0). pose proof (byteZ_range b1).
  pose proof (byteZ_range b2). pose proof (byteZ_range b3). lia.
Qed.

Lemma parseUint32_put n rest :
  0 <= n < 4294967296 -> parseUint32 (putUint32 n ++ rest) = Some (n, rest).
Proof.
  intros Hn. simpl. rewrite !byteZ_of_Z. do 2 f_equal.
  Z.div_mod_to_equations. lia.
Qed.

Lemma length_list_byte_of_string s :
  length (list_byte_of_string s) = String.length s.
Proof.
  unfold list_byte_of_string. rewrite length_map.
  induction s as [|ch s IH]; simpl; [reflexivity|now rewrite IH].
Qed.

Lemma length_string_of_list_byte (l : list byte) :
  String.length (string_of_list_byte l) = length l.
Proof.
  unfold string_of_list_byte.
  induction l as [|b l IH]; simpl; [reflexivity|now rewrite IH].
Qed.

Lemma parseString_range buf s rest :
  parseString buf = Some (s, rest) -> Z.of_nat (String.length s) < 4294967296.
Proof.
  unfold parseString.
  destruct (parseUint32 buf) as [[n tl]|] eqn:En; [|discriminate].
  apply parseUint32_range in En.
  destruct (Z.leb_spec n (Z.of_nat (length tl))); [|discriminate].
  intros [= <- <-]. rewrite length_string_of_list_byte, length_take. lia.
Qed.

Lemma parseString_put s rest :
  Z.of_nat (String.length s) < 4294967296 ->
  parseString (putString s ++ rest) = Some (s, rest).
Proof.
  intros Hs. unfold parseString, putString. rewrite <- app_assoc.
  rewrite parseUint32_put by lia.
  rewrite length_app, length_list_byte_of_string.
  destruct (Z.leb_spec (Z.of_nat (String.length s))
              (Z.of_nat (String.length s + length rest))); [|lia].
  rewrite Nat2Z.id.
  rewrite take_app_length', drop_app_length'
    by (symmetry; apply length_list_byte_of_string).
  now rewrite string_of_list_byte_of_string.
Qed.

Lemma unmarshalTunnelData_wellFormed (payload : list byte) (data : tunnelData) :
  unmarshalTunnelData payload = Some data -> wellFormed data.
Proof.
  unfold unmarshalTunnelData, wellFormed.
  destruct (parseString payload) as [[h r1]|] eqn:E1; [|discriminate].
  destruct (parseUint32 r1) as [[p r2]|] eqn:E2; [|discriminate].
  destruct (parseString r2) as [[o r3]|] eqn:E3; [|discriminate].
  destruct (parseUint32 r3) as [[q r4]|] eqn:E4; [|discriminate].
  intros [= <-]. simpl.
  apply parseString_range in E1, E3. apply parseUint32_range in E2, E4. lia.
Qed.

Lemma unmarshal_marshalTunnelData (data : tunnelData) :
  wellFormed data -> unmarshalTunnelData (marshalTunnelData data) = Some data.
Proof.
  intros (Hh & Hp & Ho & Hq). unfold unmarshalTunnelData, marshalTunnelData.
  rewrite parseString_put by exact Hh.
  rewrite parseUint32_put by exact Hp.
  rewrite parseString_put by exact Ho.
  rewrite <- (app_nil_r (putUint32 (OriginPort data))).
  rewrite parseUint32_put by exact Hq.
  now destruct data.
Qed.

Lemma unmarshal_marshalForwardRequest (req : forwardRequest) :
  Z.of_nat (String.length (fwd_Host req)) < 4294967296 ->
  0 <= fwd_Port req < 4294967296 ->
  unmarshalForwardRequest (marshalForwardRequest req) = Some req.
Proof.
  intros Hh Hp. unfold unmarshalForwardRequest, marshalForwardRequest.
  rewrite parseString_put by exact Hh.
  rewrite <- (app_nil_r (putUint32 (fwd_Port req))).
  rewrite parseUint32_put by exact Hp.
  now destruct req.
Qed.
End Codecs.

(** ** direct-tcpip channels *)

Lemma lookupConnectionService_result (w : World) (full : string) (port : Z)
    (target : nat) (host : string) (p : Z) :
  lookupConnectionService w full port = (Some target, host, p) ->
  p = port /\ advertises w target host port /\
  (String.length host <= String.length full)%nat.
Proof.
  intros Hl. pose proof (LookupSessionService_first w full port) as H. simpl in H.
  unfold lookupConnectionService in Hl. rewrite Hl in H.
  destruct H as (i & j & _ & -> & -> & _ & Hs & _).
  split; [reflexivity|]. split; [exact Hs|]. apply Join_take_length.
Qed.

Lemma lookupConnectionService_miss (w : World) (full : string) (port : Z)
    (host : string) (p : Z) :
  lookupConnectionService w full port = (None, host, p) ->
  forall i, (i < length (Split full dot))%nat -> noneAt w port (Split full dot) i.
Proof.
  intros Hl. pose proof (LookupSessionService_first w full port) as H. simpl in H.
  unfold lookupConnectionService in Hl. rewrite Hl in H. tauto.
Qed.

(** C2 as stated fails: [guest] (pointer 1) has no admin flag and asks
    for a service that nobody advertises; the payload decodes and the
    channel is rejected with [ConnectionFailed], not [Prohibited], since
    the lookup comes before the permission check. *)
Lemma handleTunnelChannel_not_admin_no_service :
  admin_of world_guest 1 = false /\
  unmarshalTunnelData (ExtraData (directTcpip "nope" 1 "1.2.3.4" 5))
    = Some (mkTunnelData "nope" 1 "1.2.3.4" 5) /\
  fst (handleTunnelChannel 1 (directTcpip "nope" 1 "1.2.3.4" 5)
         (mkChannelEnv true true) world_guest)
    = (false, ConnectionFailed, "service not found or not online"%string) /\
  ConnectionFailed <> Prohibited.
Proof. repeat split; try (vm_compute; reflexivity). discriminate. Qed.

(** C2, amended.  A [direct-tcpip] open from a connection without the
    admin flag, with a payload that decodes, is rejected and nothing is
    opened or changed: with [Prohibited] when the lookup of the requested
    [(host, uint16 port)] finds a service, and with [ConnectionFailed]
    when it finds none. *)
Theorem handleTunnelChannel_not_admin
    (w : World) (c : nat) (newChannel : NewChannel) (env : ChannelEnv) (data : tunnelData) :
  unmarshalTunnelData (ExtraData newChannel) = Some data ->
  admin_of w c = false ->
  let found := fst (fst (lookupConnectionService w (Host data) (uint16 (Port data)))) in
  snd (handleTunnelChannel c newChannel env w) = w /\
  (is_Some found ->
   fst (handleTunnelChannel c newChannel env w)
     = (false, Prohibited, "permission denied"%string)) /\
  (found = None ->
   fst (handleTunnelChannel c newChannel env w)
     = (false, ConnectionFailed, "service not found or not online"%string)).
Proof.
  intros Hd Hadm found. unfold handleTunnelChannel. rewrite Hd. subst found.
  destruct (lookupConnectionService w (Host data) (uint16 (Port data)))
    as [[[target|] host] port]; simpl; rewrite ?Hadm; simpl.
  - split; [reflexivity|]. split; [reflexivity|discriminate].
  - split; [reflexivity|]. split; [intros [x Hx]; discriminate|reflexivity].
Qed.

Lemma handleTunnelChannel_not_admin_witness :
  fst (handleTunnelChannel 1 (directTcpip "api.alice" 80 "1.2.3.4" 5)
         (mkChannelEnv true true) world_guest)
  = (false, Prohibited, "permission denied"%string).
Proof.
  destruct (handleTunnelChannel_not_admin world_guest 1
              (directTcpip "api.alice" 80 "1.2.3.4" 5) (mkChannelEnv true true)
              (mkTunnelData "api.alice" 80 "1.2.3.4" 5)) as (_ & Hp & _).
  - vm_compute. reflexivity.
  - vm_compute. reflexivity.
  - apply Hp. vm_compute. eexists. reflexivity.
Defined.

(** C3. When the connection has the admin flag and the lookup of the
    requested [(host, uint16 port)] returns a target with the service
    coordinates [(host', port')], the next thing asked of the ssh library
    is a [forwarded-tcpip] channel on the target.  Its payload decodes to
    the host and port under which the target advertises the service and
    to the origin address and origin port of the request. *)
Theorem handleTunnelChannel_forwards
    (w : World) (c : nat) (newChannel : NewChannel) (env : ChannelEnv) (data : tunnelData)
    (target : nat) (host' : string) (port' : Z) :
  unmarshalTunnelData (ExtraData newChannel) = Some data ->
  admin_of w c = true ->
  lookupConnectionService w (Host data) (uint16 (Port data)) = (Some target, host', port') ->
  exists payload later,
    trace (snd (handleTunnelChannel c newChannel env w))
      = trace w ++ EvOpenChannel target "forwarded-tcpip" payload :: later /\
    unmarshalTunnelData payload
      = Some (mkTunnelData host' port' (OriginAddress data) (OriginPort data)) /\
    advertises w target host' port'.
Proof.
  intros Hd Hadm Hl.
  destruct (lookupConnectionService_result _ _ _ _ _ _ Hl) as (-> & Hadv & Hlen).
  destruct (unmarshalTunnelData_wellFormed _ _ Hd) as (Hh & Hp & Ho & Hq).
  assert (Hport : 0 <= uint16 (Port data) < 65536)
    by (unfold uint16; apply Z.mod_pos_bound; lia).
  assert (Hu : uint32 (uint16 (Port data)) = uint16 (Port data))
    by (unfold uint32; apply Z.mod_small; lia).
  exists (marshalTunnelData
            (mkTunnelData host' (uint16 (Port data)) (OriginAddress data) (OriginPort data))).
  unfold handleTunnelChannel. rewrite Hd, Hl, Hadm. simpl. rewrite Hu.
  unfold openTunnel.
  destruct (openOk env); simpl.
  - destruct (acceptOk env); simpl.
    + exists [EvAccept c]. rewrite <- app_assoc. split; [reflexivity|].
      split; [|exact Hadv]. apply unmarshal_marshalTunnelData. unfold wellFormed; simpl. lia.
    + exists [EvAccept c; EvTunnelClose (nextTunnel w)]. rewrite <- !app_assoc.
      split; [reflexivity|].
      split; [|exact Hadv]. apply unmarshal_marshalTunnelData. unfold wellFormed; simpl. lia.
  - exists []. split; [reflexivity|].
    split; [|exact Hadv]. apply unmarshal_marshalTunnelData. unfold wellFormed; simpl. lia.
Qed.

Lemma handleTunnelChannel_forwards_witness :
  exists payload later,
    trace (snd (handleTunnelChannel 0 (directTcpip "api.alice" 80 "1.2.3.4" 5)
                  (mkChannelEnv true true) world_guest))
      = trace world_guest ++ EvOpenChannel 0 "forwarded-tcpip" payload :: later /\
    unmarshalTunnelData payload = Some (mkTunnelData "api" 80 "1.2.3.4" 5).
Proof.
  destruct (handleTunnelChannel_forwards world_guest 0
              (directTcpip "api.alice" 80 "1.2.3.4" 5) (mkChannelEnv true true)
              (mkTunnelData "api.alice" 80 "1.2.3.4" 5) 0 "api" 80)
    as (payload & later & Ht & Hp & _).
  - vm_compute. reflexivity.
  - vm_compute. reflexivity.
  - vm_compute. reflexivity.
  - exists payload, later. split; [exact Ht|exact Hp].
Defined.

(** ** The registry: add, delete, close *)

Section Registry.
Implicit Types (w : World) (c s : nat) (l : list nat) (u : string).

Lemma elem_of_remove_ptr c s l : s ∈ remove_ptr c l <-> s ∈ l /\ s <> c.
Proof.
  unfold remove_ptr. rewrite !list_elem_of_In, filter_In.
  destruct (Nat.eqb_spec s c); simpl; intuition congruence.
Qed.

Lemma NoDup_remove_ptr c l : NoDup l -> NoDup (remove_ptr c l).
Proof.
  induction 1 as [|x l Hx Hl IH]; simpl; [constructor|].
  destruct (Nat.eqb x c); simpl; [exact IH|].
  constructor; [|exact IH]. rewrite elem_of_remove_ptr. tauto.
Qed.

Lemma DeleteSession_heap c w : heap (DeleteSession c w) = heap w.
Proof. unfold DeleteSession. now destruct (heap w !! c). Qed.

Lemma DeleteSession_trace c w : trace (DeleteSession c w) = trace w.
Proof. unfold DeleteSession. now destruct (heap w !! c). Qed.

Lemma DeleteSession_list c w conn :
  heap w !! c = Some conn ->
  sessionsList (gateway (DeleteSession c w)) = remove_ptr c (sessionsList (gateway w)).
Proof. intros Hc. unfold DeleteSession. now rewrite Hc. Qed.

Lemma DeleteSession_index c w conn u :
  heap w !! c = Some conn ->
  index_at (gateway (DeleteSession c w)) u
  = if decide (u = user conn) then remove_ptr c (index_at (gateway w) u)
    else index_at (gateway w) u.
Proof.
  intros Hc. unfold DeleteSession. rewrite Hc. unfold index_at at 1. simpl.
  destruct (decide (u = user conn)) as [->|Hne].
  - now rewrite lookup_insert_eq.
  - now rewrite lookup_insert_ne by congruence.
Qed.

(** The shape of [Close] on a connection that is not closed yet. *)
Lemma Close_open c w conn :
  heap w !! c = Some conn -> closeOnce conn = false ->
  Close c w
  = emit (teardownEvents c conn)
      (deleteConnection c (set_heap w (<[c := set_closeOnce conn true]> (heap w)))).
Proof.
  intros Hc Hopen. unfold Close, teardownEvents, emit. rewrite Hc, Hopen. simpl.
  now rewrite <- !app_assoc.
Qed.

Lemma Close_closed c w conn :
  heap w !! c = Some conn -> closeOnce conn = true -> Close c w = w.
Proof. intros Hc Hdone. unfold Close. now rewrite Hc, Hdone. Qed.

Lemma Close_heap c w conn :
  heap w !! c = Some conn -> closeOnce conn = false ->
  heap (Close c w) = <[c := set_closeOnce conn true]> (heap w).
Proof.
  intros Hc Hopen. rewrite (Close_open c w conn Hc Hopen). simpl.
  unfold deleteConnection. now rewrite DeleteSession_heap.
Qed.

Lemma Close_list c w conn :
  heap w !! c = Some conn -> closeOnce conn = false ->
  sessionsList (gateway (Close c w)) = remove_ptr c (sessionsList (gateway w)).
Proof.
  intros Hc Hopen. rewrite (Close_open c w conn Hc Hopen). simpl.
  unfold deleteConnection.
  erewrite DeleteSession_list by (simpl; apply lookup_insert_eq). reflexivity.
Qed.

Lemma Close_index c w conn u :
  heap w !! c = Some conn -> closeOnce conn = false ->
  index_at (gateway (Close c w)) u
  = if decide (u = user conn) then remove_ptr c (index_at (gateway w) u)
    else index_at (gateway w) u.
Proof.
  intros Hc Hopen. rewrite (Close_open c w conn Hc Hopen). simpl.
  unfold deleteConnection.
  erewrite DeleteSession_index by (simpl; apply lookup_insert_eq). reflexivity.
Qed.

Lemma Close_trace c w conn :
  heap w !! c = Some conn -> closeOnce conn = false ->
  trace (Close c w) = trace w ++ teardownEvents c conn.
Proof.
  intros Hc Hopen. rewrite (Close_open c w conn Hc Hopen). simpl.
  unfold deleteConnection. now rewrite DeleteSession_trace.
Qed.

Lemma Close_nextConn c w : nextConn (Close c w) = nextConn w.
Proof.
  unfold Close. destruct (heap w !! c) as [conn|] eqn:Hc; [|reflexivity].
  destruct (closeOnce conn); [reflexivity|]. simpl.
  unfold deleteConnection, DeleteSession. simpl. now rewrite lookup_insert_eq.
Qed.

(** Under the invariant a connection is registered under its own user
    name only. *)
Lemma wf_registered_user w s u conn :
  wf w -> registered w s u -> heap w !! s = Some conn -> u = user conn.
Proof.
  intros Hwf Hreg Hs. destruct (wf_index w Hwf u s Hreg) as (conn' & Hs' & Hu & _).
  congruence.
Qed.

Lemma Close_registered c w conn s u :
  wf w -> heap w !! c = Some conn -> closeOnce conn = false ->
  registered (Close c w) s u <-> registered w s u /\ s <> c.
Proof.
  intros Hwf Hc Hopen. unfold registered. rewrite (Close_index c w conn u Hc Hopen).
  destruct (decide (u = user conn)) as [->|Hne].
  - apply elem_of_remove_ptr.
  - split; [|tauto]. intros Hreg. split; [exact Hreg|]. intros ->.
    apply Hne. now apply (wf_registered_user w c u conn).
Qed.

Lemma Close_listed c w conn s :
  heap w !! c = Some conn -> closeOnce conn = false ->
  s ∈ sessionsList (gateway (Close c w)) <-> s ∈ sessionsList (gateway w) /\ s <> c.
Proof.
  intros Hc Hopen. rewrite (Close_list c w conn Hc Hopen). apply elem_of_remove_ptr.
Qed.

(** The invariant holds initially and is kept by every operation. *)
Lemma wf_initWorld : wf initWorld.
Proof.
  split; simpl.
  - intros u s H. unfold registered, index_at in H. simpl in H.
    rewrite lookup_empty in H. simpl in H. now apply not_elem_of_nil in H.
  - intros s H. now apply not_elem_of_nil in H.
  - constructor.
  - intros s [x Hx]. rewrite lookup_empty in Hx. discriminate.
Qed.

Lemma wf_Close c w : wf w -> wf (Close c w).
Proof.
  intros Hwf. destruct (heap w !! c) as [conn|] eqn:Hc;
    [|unfold Close; now rewrite Hc].
  destruct (closeOnce conn) eqn:Hopen; [now rewrite (Close_closed c w conn)|].
  split.
  - intros u s Hreg. apply (Close_registered c w conn s u Hwf Hc Hopen) in Hreg as [Hreg Hne].
    destruct (wf_index w Hwf u s Hreg) as (conn' & Hs & Hu & Ho & Hl).
    exists conn'. rewrite (Close_heap c w conn Hc Hopen), lookup_insert_ne by congruence.
    repeat split; try assumption.
    apply (Close_listed c w conn s Hc Hopen). tauto.
  - intros s Hl. apply (Close_listed c w conn s Hc Hopen) in Hl as [Hl Hne].
    destruct (wf_list w Hwf s Hl) as (conn' & Hs & Hreg).
    exists conn'. rewrite (Close_heap c w conn Hc Hopen), lookup_insert_ne by congruence.
    split; [exact Hs|]. apply (Close_registered c w conn s _ Hwf Hc Hopen). tauto.
  - rewrite (Close_list c w conn Hc Hopen). apply NoDup_remove_ptr, (wf_nodup w Hwf).
  - intros s Hs. rewrite Close_nextConn. apply (wf_fresh w Hwf).
    rewrite (Close_heap c w conn Hc Hopen) in Hs.
    destruct (decide (s = c)) as [->|Hne]; [now rewrite Hc|].
    now rewrite lookup_insert_ne in Hs by congruence.
Qed.
End Registry.

Section Invariant.
Implicit Types (w : World) (c s : nat) (u : string).

(** Operations that leave the gateway alone and keep the user name and
    the once-flag of every connection keep the invariant. *)
Lemma wf_same_registry w w' :
  gateway w' = gateway w -> nextConn w' = nextConn w ->
  (forall s, match heap w !! s, heap w' !! s with
             | Some a, Some b => user a = user b /\ closeOnce a = closeOnce b
             | None, None => True
             | _, _ => False
             end) ->
  wf w -> wf w'.
Proof.
  intros Hg Hn Hheap Hwf. split; unfold registered; rewrite ?Hg, ?Hn.
  - intros u s Hreg. destruct (wf_index w Hwf u s Hreg) as (conn & Hs & Hu & Ho & Hl).
    specialize (Hheap s). rewrite Hs in Hheap.
    destruct (heap w' !! s) as [b|]; [|contradiction].
    exists b. destruct Hheap as [Hu' Ho']. repeat split; congruence.
  - intros s Hl. destruct (wf_list w Hwf s Hl) as (conn & Hs & Hreg).
    specialize (Hheap s). rewrite Hs in Hheap.
    destruct (heap w' !! s) as [b|]; [|contradiction].
    exists b. destruct Hheap as [Hu' Ho']. split; [reflexivity|].
    unfold registered in Hreg. congruence.
  - apply (wf_nodup w Hwf).
  - intros s [b Hb]. apply (wf_fresh w Hwf). specialize (Hheap s). rewrite Hb in Hheap.
    destruct (heap w !! s); [eauto|contradiction].
Qed.

Lemma handleRequest_identity (conn : Connection) (request : Request) :
  user (fst (handleRequest conn request)) = user conn /\
  closeOnce (fst (handleRequest conn request)) = closeOnce conn.
Proof.
  unfold handleRequest.
  destruct (ReqType request =? "tcpip-forward")%string.
  - destruct (unmarshalForwardRequest (Payload request)) as [req|]; [|now split].
    destruct (fwd_Port req =? 0); [now split|].
    unfold registerService.
    destruct (port_flag _ _); now split.
  - destruct (ReqType request =? "cancel-tcpip-forward")%string; [|now split].
    destruct (unmarshalForwardRequest (Payload request)) as [req|]; [|now split].
    unfold deregisterService.
    destruct (services conn !! fwd_Host req); now split.
Qed.

Lemma wf_handleRequestAt c (request : Request) w :
  wf w -> wf (fst (handleRequestAt c request w)).
Proof.
  intros Hwf. unfold handleRequestAt.
  destruct (heap w !! c) as [conn|] eqn:Hc; [|exact Hwf].
  pose proof (handleRequest_identity conn request) as [Hu Ho].
  destruct (handleRequest conn request) as [conn' reply]. simpl in *.
  apply (wf_same_registry w); try reflexivity; [|exact Hwf].
  intros s. simpl. destruct (decide (s = c)) as [->|Hne].
  - rewrite Hc, lookup_insert_eq. split; congruence.
  - rewrite lookup_insert_ne by congruence. destruct (heap w !! s); tauto.
Qed.

Lemma alter_addTunnel_identity (h : gmap nat Connection) (c t s : nat) :
  match h !! s, alter (fun conn => addTunnel conn t) c h !! s with
  | Some a, Some b => user a = user b /\ closeOnce a = closeOnce b
  | None, None => True
  | _, _ => False
  end.
Proof.
  destruct (decide (s = c)) as [->|Hne].
  - rewrite lookup_alter_eq. destruct (h !! c); simpl; tauto.
  - rewrite lookup_alter_ne by congruence. destruct (h !! s); tauto.
Qed.

Lemma wf_handleTunnelChannel c (newChannel : NewChannel) (env : ChannelEnv) w :
  wf w -> wf (snd (handleTunnelChannel c newChannel env w)).
Proof.
  intros Hwf. unfold handleTunnelChannel.
  destruct (unmarshalTunnelData (ExtraData newChannel)) as [data|]; [|exact Hwf].
  destruct (lookupConnectionService w (Host data) (uint16 (Port data)))
    as [[[target|] host] port]; [|exact Hwf].
  destruct (negb (admin_of w c)); [exact Hwf|].
  unfold openTunnel. destruct (openOk env); simpl.
  - destruct (acceptOk env); simpl.
    + apply (wf_same_registry w); try reflexivity; [|exact Hwf].
      intros s. simpl.
      pose proof (alter_addTunnel_identity (heap w) target (nextTunnel w) s) as H1.
      pose proof (alter_addTunnel_identity
                    (alter (fun conn => addTunnel conn (nextTunnel w)) target (heap w))
                    c (S (nextTunnel w)) s) as H2.
      destruct (heap w !! s), (alter _ target (heap w) !! s), (alter _ c _ !! s);
        try tauto. split; destruct H1, H2; congruence.
    + apply (wf_same_registry w); try reflexivity; [|exact Hwf].
      intros s. simpl. apply alter_addTunnel_identity.
  - apply (wf_same_registry w); try reflexivity; [|exact Hwf].
    intros s. simpl. destruct (heap w !! s); tauto.
Qed.

Lemma wf_HandleConnection (name : string) (extensions : gmap string string) (now : Z) w :
  wf w -> wf (snd (HandleConnection name extensions now w)).
Proof.
  intros Hwf. unfold HandleConnection. simpl.
  set (p := nextConn w). set (conn0 := newConnection name extensions now).
  set (w1 := mkWorld (<[p := conn0]> (heap w)) (gateway w) (trace w) (S p) (nextTunnel w)).
  assert (Hp : heap w1 !! p = Some conn0) by apply lookup_insert_eq.
  assert (Hold : forall s conn, heap w !! s = Some conn ->
                   s <> p /\ heap w1 !! s = Some conn).
  { intros s conn Hs. assert (s < p)%nat by (apply (wf_fresh w Hwf); eauto).
    split; [lia|]. simpl. rewrite lookup_insert_ne by lia. exact Hs. }
  assert (Hidx : forall u, index_at (gateway (AddSession p w1)) u
                 = if decide (u = name) then p :: index_at (gateway w) u
                   else index_at (gateway w) u).
  { intros u. destruct (decide (u = name)) as [->|Hne].
    - apply (AddSession_index w1 p conn0 Hp).
    - now rewrite (AddSession_index_other w1 p conn0 u Hp). }
  assert (Hheap : heap (AddSession p w1) = heap w1)
    by (unfold AddSession; now rewrite Hp).
  assert (Hnext : nextConn (AddSession p w1) = S p)
    by (unfold AddSession; now rewrite Hp).
  split; unfold registered; rewrite ?Hheap, ?Hnext, ?(AddSession_list w1 p conn0 Hp).
  - intros u s Hreg. rewrite Hidx in Hreg.
    assert (Hcase : (s = p /\ u = name) \/ registered w s u).
    { destruct (decide (u = name)); [|now right].
      apply elem_of_cons in Hreg as [->|Hreg]; [now left|now right]. }
    destruct Hcase as [[-> ->]|Hreg'].
    + exists conn0. repeat split; [exact Hp|]. apply elem_of_cons. now left.
    + destruct (wf_index w Hwf u s Hreg') as (conn & Hs & Hu & Ho & Hl).
      exists conn. destruct (Hold s conn Hs) as [_ Hs1].
      repeat split; try assumption. apply elem_of_cons. now right.
  - intros s Hl. apply elem_of_cons in Hl as [->|Hl].
    + exists conn0. split; [exact Hp|]. rewrite Hidx. simpl.
      destruct (decide (name = name)); [|congruence]. apply elem_of_cons. now left.
    + destruct (wf_list w Hwf s Hl) as (conn & Hs & Hreg).
      exists conn. destruct (Hold s conn Hs) as [_ Hs1]. split; [exact Hs1|].
      rewrite Hidx. destruct (decide (user conn = name)); [|exact Hreg].
      apply elem_of_cons. now right.
  - constructor; [|apply (wf_nodup w Hwf)].
    intros Hl. destruct (wf_list w Hwf p Hl) as (conn & Hs & _).
    destruct (Hold p conn Hs) as [Hne _]. congruence.
  - intros s [b Hb]. simpl in Hb. destruct (decide (s = p)) as [->|Hne]; [lia|].
    rewrite lookup_insert_ne in Hb by congruence.
    assert (s < p)%nat by (apply (wf_fresh w Hwf); eauto). lia.
Qed.

Lemma wf_connectAndForward (name : string) (extensions : gmap string string)
    (host : string) (port : Z) w :
  wf w -> wf (connectAndForward name extensions host port w).
Proof.
  intros Hwf. unfold connectAndForward.
  pose proof (wf_HandleConnection name extensions 0 w Hwf) as H1.
  destruct (HandleConnection name extensions 0 w) as [p w1].
  now apply wf_handleRequestAt.
Qed.
End Invariant.

(** ** Close *)


Lemma Close_absent (c : nat) (w : World) :
  wf w ->
  (c ∉ sessionsList (gateway (Close c w))) /\ forall u, ~ registered (Close c w) c u.
Proof.
  intros Hwf.
  assert (Hnot : forall w0, wf w0 ->
            (forall conn, heap w0 !! c = Some conn -> closeOnce conn = true) ->
            (c ∉ sessionsList (gateway w0)) /\ forall u, ~ registered w0 c u).
  { intros w0 Hwf0 Hdone.
    assert (Hreg : forall u, ~ registered w0 c u).
    { intros u Hreg. destruct (wf_index w0 Hwf0 u c Hreg) as (conn & Hc & _ & Ho & _).
      specialize (Hdone conn Hc). congruence. }
    split; [|exact Hreg]. intros Hl.
    destruct (wf_list w0 Hwf0 c Hl) as (conn & _ & Hr). now apply (Hreg (user conn)). }
  destruct (heap w !! c) as [conn|] eqn:Hc.
  - destruct (closeOnce conn) eqn:Hopen.
    + rewrite (Close_closed c w conn Hc Hopen). apply Hnot; [exact Hwf|].
      intros conn' Hc'. congruence.
    + split.
      * rewrite (Close_listed c w conn c Hc Hopen). tauto.
      * intros u. rewrite (Close_registered c w conn c u Hwf Hc Hopen). tauto.
  - assert (H : Close c w = w) by (unfold Close; now rewrite Hc). rewrite H.
    apply Hnot; [exact Hwf|]. intros conn Hc'. congruence.
Qed.



(** ** The scavenger *)

Section Scavenger.
Variable timeout : Z.
Variable clock : nat -> Z.

Lemma Close_other (c s : nat) (w : World) :
  wf w -> s <> c ->
  heap (Close c w) !! s = heap w !! s /\
  (s ∈ sessionsList (gateway (Close c w)) <-> s ∈ sessionsList (gateway w)) /\
  (forall u, registered (Close c w) s u <-> registered w s u).
Proof.
  intros Hwf Hne.
  destruct (heap w !! c) as [conn|] eqn:Hc;
    [|unfold Close; rewrite Hc; tauto].
  destruct (closeOnce conn) eqn:Hopen;
    [rewrite (Close_closed c w conn Hc Hopen); tauto|].
  split; [|split].
  - rewrite (Close_heap c w conn Hc Hopen). now rewrite lookup_insert_ne by congruence.
  - rewrite (Close_listed c w conn s Hc Hopen). tauto.
  - intros u. rewrite (Close_registered c w conn s u Hwf Hc Hopen). tauto.
Qed.

Lemma scavengeLoop_spec (snapshot : list nat) :
  forall (i : nat) (w : World),
    wf w -> NoDup snapshot ->
    (forall s, s ∈ snapshot -> s ∈ sessionsList (gateway w)) ->
    let w' := scavengeLoop timeout clock i snapshot w in
    wf w' /\
    (forall s, s ∉ snapshot ->
       heap w' !! s = heap w !! s /\
       (s ∈ sessionsList (gateway w') <-> s ∈ sessionsList (gateway w)) /\
       (forall u, registered w' s u <-> registered w s u)) /\
    (forall k s conn, snapshot !! k = Some s -> heap w !! s = Some conn ->
       if Since (clock (i + k)) (used conn) >? timeout
       then heap w' !! s = Some (set_closeOnce conn true) /\
            (s ∉ sessionsList (gateway w')) /\
            (forall u, ~ registered w' s u)
       else heap w' !! s = Some conn /\
            s ∈ sessionsList (gateway w') /\
            registered w' s (user conn)).
Proof.
  induction snapshot as [|s0 rest IH]; intros i w Hwf Hnd Hsub; cbv zeta; simpl.
  - split; [exact Hwf|]. split; [tauto|]. intros k s conn H. discriminate.
  - apply NoDup_cons in Hnd as [Hs0 Hnd].
    assert (Hl0 : s0 ∈ sessionsList (gateway w)) by (apply Hsub, elem_of_cons; now left).
    destruct (wf_list w Hwf s0 Hl0) as (conn0 & Hc0 & Hreg0).
    destruct (wf_index w Hwf _ s0 Hreg0) as (conn0' & Hc0' & _ & Hopen0 & _).
    assert (conn0' = conn0) by congruence. subst conn0'.
    unfold Used. rewrite Hc0.
    set (w1 := if Since (clock i) (used conn0) >? timeout then Close s0 w else w).
    assert (Hwf1 : wf w1) by (unfold w1; destruct (_ >? _); [now apply wf_Close|exact Hwf]).
    assert (Hother : forall s, s <> s0 ->
              heap w1 !! s = heap w !! s /\
              (s ∈ sessionsList (gateway w1) <-> s ∈ sessionsList (gateway w)) /\
              (forall u, registered w1 s u <-> registered w s u)).
    { intros s Hne. unfold w1. destruct (_ >? _); [now apply Close_other|tauto]. }
    assert (Hsub1 : forall s, s ∈ rest -> s ∈ sessionsList (gateway w1)).
    { intros s Hs. assert (s <> s0) by (intros ->; contradiction).
      apply (Hother s); [assumption|]. apply Hsub, elem_of_cons. now right. }
    destruct (IH (S i) w1 Hwf1 Hnd Hsub1) as (Hwf' & Hout & Hin).
    set (w' := scavengeLoop timeout clock (S i) rest w1) in *.
    split; [exact Hwf'|]. split.
    + intros s Hs. apply not_elem_of_cons in Hs as [Hne Hs].
      destruct (Hout s Hs) as (Hh & Hl & Hr). destruct (Hother s Hne) as (Hh1 & Hl1 & Hr1).
      split; [now rewrite Hh|]. split; [tauto|]. intros u. rewrite Hr. apply Hr1.
    + intros [|k] s conn Hk Hs; simpl in Hk.
      * injection Hk as <-. assert (conn = conn0) by congruence. subst conn.
        rewrite Nat.add_0_r. destruct (Hout s0 Hs0) as (Hh & Hl & Hr).
        unfold w1 in Hh, Hl, Hr.
        destruct (Since (clock i) (used conn0) >? timeout).
        -- destruct (Close_absent s0 w Hwf) as [Hla Hra].
           rewrite Hh, (Close_heap s0 w conn0 Hc0 Hopen0), lookup_insert_eq.
           split; [reflexivity|]. split; [tauto|]. intros u. rewrite Hr. apply Hra.
        -- rewrite Hh. split; [exact Hc0|]. split; [tauto|]. now apply Hr.
      * assert (Hrest : s ∈ rest) by (apply list_elem_of_lookup; eauto).
        assert (Hne : s <> s0) by (intros ->; contradiction).
        destruct (Hother s Hne) as (Hh1 & _).
        replace (i + S k)%nat with (S i + k)%nat by lia.
        apply (Hin k s conn Hk). congruence.
Qed.
End Scavenger.

(** C8. Under the gateway invariant, [ScavengeConnections] closes the
    connection at position [k] of the list exactly when its idle time,
    [time.Since] of its [used] stamp at the [k]-th reading of the clock,
    is greater than the timeout: it then has its once-flag set and is out
    of the list and of the index.  Every other listed connection keeps
    its state and its registration, and connections outside the list are
    not changed. *)
Theorem ScavengeConnections_closes_idle
    (timeout : Z) (clock : nat -> Z) (w : World) :
  wf w ->
  let w' := ScavengeConnections timeout clock w in
  (forall k s conn,
     sessionsList (gateway w) !! k = Some s -> heap w !! s = Some conn ->
     (Since (clock k) (used conn) > timeout ->
        heap w' !! s = Some (set_closeOnce conn true) /\
        (s ∉ sessionsList (gateway w')) /\
        (forall u, ~ registered w' s u)) /\
     (Since (clock k) (used conn) <= timeout ->
        heap w' !! s = Some conn /\
        s ∈ sessionsList (gateway w') /\
        registered w' s (user conn))) /\
  (forall s, s ∉ sessionsList (gateway w) -> heap w' !! s = heap w !! s).
Proof.
  intros Hwf w'.
  destruct (scavengeLoop_spec timeout clock (Sessions w) 0 w Hwf (wf_nodup w Hwf))
    as (_ & Hout & Hin); [tauto|].
  fold (ScavengeSessions timeout clock w) in Hout, Hin.
  split.
  - intros k s conn Hk Hs. specialize (Hin k s conn Hk Hs). simpl in Hin.
    destruct (Z.gtb_spec (Since (clock k) (used conn)) timeout); split; intros; (lia || exact Hin).
  - intros s Hs. now apply (Hout s).
Qed.

Lemma ScavengeConnections_closes_idle_witness :
  let w' := ScavengeConnections 600 (fun _ => 700) world_idle in
  (closeOnce <$> heap w' !! 0%nat) = Some true /\
  (closeOnce <$> heap w' !! 1%nat) = Some false /\
  sessionsList (gateway w') = [1%nat].
Proof.
  intros w'.
  destruct (ScavengeConnections_closes_idle 600 (fun _ => 700) world_idle) as [H _].
  - apply wf_HandleConnection, wf_HandleConnection, wf_initWorld.
  - destruct (H 1%nat 0%nat (newConnection "alice" ∅ 0)) as [Hclosed _];
      [vm_compute; reflexivity ..|].
    destruct (H 0%nat 1%nat (newConnection "bob" ∅ 500)) as [_ Hkept];
      [vm_compute; reflexivity ..|].
    destruct Hclosed as [Hc _]; [vm_compute; reflexivity|].
    destruct Hkept as [Hk _]; [vm_compute; discriminate|].
    fold w' in Hc, Hk. rewrite Hc, Hk.
    split; [reflexivity|]. split; [reflexivity|]. vm_compute. reflexivity.
Defined.

(* ===================================================================== *)
(** * Further properties of the connection                               *)
(* ===================================================================== *)

(** ** Registering and deregistering *)

Lemma registerService_frame (c : Connection) (host : string) (port : Z) :
  set_services (snd (registerService c host port)) (services c) = c.
Proof.
  unfold registerService. destruct (port_flag _ _); simpl; now destruct c.
Qed.

Lemma deregisterService_frame (c : Connection) (host : string) (port : Z) :
  set_services (snd (deregisterService c host port)) (services c) = c.
Proof.
  unfold deregisterService. destruct (services c !! host); simpl; now destruct c.
Qed.

Lemma registerService_others (c : Connection) (host : string) (port : Z)
    (host' : string) (port' : Z) :
  (host', port') <> (host, port) ->
  lookupService (snd (registerService c host port)) host' port'
  = lookupService c host' port'.
Proof.
  intros Hne. unfold registerService.
  destruct (services c !! host) as [ports|] eqn:Eh.
  - unfold ports_at. rewrite Eh. simpl.
    destruct (port_flag ports port); simpl; unfold lookupService; simpl; [reflexivity|].
    destruct (decide (host' = host)) as [->|Hh].
    + rewrite lookup_insert_eq, Eh. unfold port_flag.
      now rewrite lookup_insert_ne by congruence.
    + now rewrite lookup_insert_ne by congruence.
  - unfold ports_at. rewrite lookup_insert_eq. simpl.
    unfold port_flag at 1. rewrite lookup_empty. simpl.
    unfold lookupService. simpl.
    destruct (decide (host' = host)) as [->|Hh].
    + rewrite lookup_insert_eq, Eh. unfold port_flag.
      rewrite lookup_insert_ne by congruence. now rewrite lookup_empty.
    + now rewrite !lookup_insert_ne by congruence.
Qed.

(** X1. [registerService] on a service that is not advertised yet
    returns no error; afterwards the service is advertised, every other
    (host, port) is advertised exactly as before, and no field of the
    connection other than [services] has changed. *)
Theorem registerService_fresh (c : Connection) (host : string) (port : Z) :
  lookupService c host port = false ->
  fst (registerService c host port) = None /\
  lookupService (snd (registerService c host port)) host port = true /\
  (forall host' port', (host', port') <> (host, port) ->
     lookupService (snd (registerService c host port)) host' port'
     = lookupService c host' port') /\
  set_services (snd (registerService c host port)) (services c) = c.
Proof.
  intros Hfree. destruct (registerService_ok c host port Hfree) as (c' & Hr & Hl & _).
  split; [now rewrite Hr|]. split; [now rewrite Hr|].
  split; [intros; now apply registerService_others|apply registerService_frame].
Qed.

Lemma registerService_fresh_witness :
  let c := newConnection "alice" ∅ 0 in
  fst (registerService c "api" 80) = None /\
  lookupService (snd (registerService c "api" 80)) "api" 80 = true.
Proof.
  intros c. destruct (registerService_fresh c "api" 80) as (He & Hl & _).
  - vm_compute. reflexivity.
  - split; [exact He|exact Hl].
Defined.

Lemma deregisterService_dom (c : Connection) (host : string) (port : Z) :
  dom (services (snd (deregisterService c host port))) = dom (services c).
Proof.
  unfold deregisterService. destruct (services c !! host) as [ports|] eqn:Eh; simpl;
    [|reflexivity].
  rewrite dom_insert_L. apply subseteq_union_1_L, singleton_subseteq_l.
  apply elem_of_dom. eauto.
Qed.

(** X2. [deregisterService] changes the answer of [lookupService] for
    the named (host, port) only, touches no field other than [services],
    and never removes a host from the outer map: a host whose last port
    was cancelled stays behind with an empty port map. *)
Theorem deregisterService_only_named (c : Connection) (host : string) (port : Z) :
  (forall host' port', (host', port') <> (host, port) ->
     lookupService (snd (deregisterService c host port)) host' port'
     = lookupService c host' port') /\
  set_services (snd (deregisterService c host port)) (services c) = c /\
  dom (services (snd (deregisterService c host port))) = dom (services c).
Proof.
  split; [intros; now apply deregisterService_others|].
  split; [apply deregisterService_frame|apply deregisterService_dom].
Qed.

(** X3. Registering a service that was not advertised and then
    deregistering it gives back every answer of [lookupService], but not
    the map: the host is now a key of it. *)
Theorem register_then_deregister (c : Connection) (host : string) (port : Z) :
  lookupService c host port = false ->
  let c2 := snd (deregisterService (snd (registerService c host port)) host port) in
  (forall host' port', lookupService c2 host' port' = lookupService c host' port') /\
  is_Some (services c2 !! host).
Proof.
  intros Hfree c2. split.
  - intros host' port'. unfold c2.
    destruct (decide ((host', port') = (host, port))) as [Heq|Hne].
    + injection Heq as -> ->. now rewrite deregisterService_absent.
    + rewrite deregisterService_others by exact Hne.
      now apply registerService_others.
  - apply elem_of_dom. unfold c2. rewrite deregisterService_dom.
    apply elem_of_dom. unfold registerService.
    destruct (services c !! host) as [ports|] eqn:Eh.
    + unfold ports_at. rewrite Eh. simpl.
      destruct (port_flag ports port); simpl; [now rewrite Eh|].
      rewrite lookup_insert_eq. eauto.
    + destruct (port_flag _ _); simpl; rewrite lookup_insert_eq; eauto.
Qed.

Lemma register_then_deregister_witness :
  let c := newConnection "alice" ∅ 0 in
  let c2 := snd (deregisterService (snd (registerService c "api" 80)) "api" 80) in
  lookupService c2 "api" 80 = false /\ is_Some (services c2 !! "api"%string) /\
  services c !! "api"%string = None.
Proof.
  intros c c2. destruct (register_then_deregister c "api" 80) as (Hl & Hk).
  - vm_compute. reflexivity.
  - split; [exact (eq_trans (Hl "api"%string 80) eq_refl)|]. split; [exact Hk|].
    vm_compute. reflexivity.
Defined.

(** ** More on global requests *)

Lemma handleRequest_other_type (c : Connection) (request : Request) :
  ReqType request <> "tcpip-forward"%string ->
  ReqType request <> "cancel-tcpip-forward"%string ->
  handleRequest c request = (c, replyOf request false).
Proof.
  intros H1 H2. unfold handleRequest, replyOf.
  apply String.eqb_neq in H1, H2. now rewrite H1, H2.
Qed.

Lemma handleRequest_undecodable (c : Connection) (request : Request) :
  unmarshalForwardRequest (Payload request) = None ->
  handleRequest c request = (c, replyOf request false).
Proof.
  intros Hd. unfold handleRequest, replyOf. rewrite Hd.
  destruct (ReqType request =? "tcpip-forward")%string; [reflexivity|].
  destruct (ReqType request =? "cancel-tcpip-forward")%string; reflexivity.
Qed.

(** X4. A global request of a type other than [tcpip-forward] and
    [cancel-tcpip-forward], or one whose payload does not decode, is
    answered not-ok (when a reply is wanted) and leaves the connection
    as it was. *)
Theorem handleRequest_rejects_unknown (c : Connection) (request : Request) :
  (ReqType request <> "tcpip-forward"%string /\
   ReqType request <> "cancel-tcpip-forward"%string)
  \/ unmarshalForwardRequest (Payload request) = None ->
  handleRequest c request = (c, if WantReply request then Some false else None).
Proof.
  intros [[H1 H2]|Hd].
  - now apply handleRequest_other_type.
  - now apply handleRequest_undecodable.
Qed.

Lemma handleRequest_rejects_unknown_witness :
  let c := newConnection "alice" ∅ 0 in
  handleRequest c (mkRequest "keepalive@openssh.com" true []) = (c, Some false) /\
  handleRequest c (mkRequest "tcpip-forward" true []) = (c, Some false).
Proof.
  intros c. split.
  - apply (handleRequest_rejects_unknown c (mkRequest "keepalive@openssh.com" true [])).
    left. split; discriminate.
  - apply (handleRequest_rejects_unknown c (mkRequest "tcpip-forward" true [])).
    right. reflexivity.
Defined.

(** X5. A [tcpip-forward] request for a host and [uint16] port that
    the connection already advertises is answered not-ok and changes
    nothing, whatever the 32-bit port on the wire. *)
Theorem handleRequest_duplicate_forward
    (c : Connection) (request : Request) (req : forwardRequest) :
  ReqType request = "tcpip-forward"%string ->
  unmarshalForwardRequest (Payload request) = Some req ->
  lookupService c (fwd_Host req) (uint16 (fwd_Port req)) = true ->
  handleRequest c request = (c, if WantReply request then Some false else None).
Proof.
  intros Ht Hd Hl. rewrite (handleRequest_forward c request req Ht Hd).
  destruct (fwd_Port req =? 0); [reflexivity|].
  now rewrite (registerService_taken _ _ _ Hl).
Qed.

Lemma handleRequest_duplicate_forward_witness :
  let c := fst (handleRequest (newConnection "alice" ∅ 0) (tcpipForward "api" 80)) in
  handleRequest c (tcpipForward "api" 80) = (c, Some false) /\
  handleRequest c (tcpipForward "api" 65616) = (c, Some false).
Proof.
  intros c. split.
  - apply (handleRequest_duplicate_forward c (tcpipForward "api" 80)
             (mkForwardRequest "api" 80)); vm_compute; reflexivity.
  - apply (handleRequest_duplicate_forward c (tcpipForward "api" 65616)
             (mkForwardRequest "api" 65616)); vm_compute; reflexivity.
Defined.

(** X6. [handleRequest] writes to [services] only: user, sessions,
    tunnels, once-flag, last-used stamp and admin flag are those of the
    connection before; and a reply is produced exactly when the request
    wants one. *)
Theorem handleRequest_touches_services_only (c : Connection) (request : Request) :
  set_services (fst (handleRequest c request)) (services c) = c /\
  (is_Some (snd (handleRequest c request)) <-> WantReply request = true).
Proof.
  split.
  - unfold handleRequest.
    destruct (ReqType request =? "tcpip-forward")%string.
    + destruct (unmarshalForwardRequest (Payload request)) as [req|];
        [|simpl; apply set_services_same].
      destruct (fwd_Port req =? 0); [simpl; apply set_services_same|].
      pose proof (registerService_frame c (fwd_Host req) (uint16 (fwd_Port req))) as Hf.
      destruct (registerService c (fwd_Host req) (uint16 (fwd_Port req))) as [[e|] c1];
        exact Hf.
    + destruct (ReqType request =? "cancel-tcpip-forward")%string;
        [|simpl; apply set_services_same].
      destruct (unmarshalForwardRequest (Payload request)) as [req|];
        [|simpl; apply set_services_same].
      pose proof (deregisterService_frame c (fwd_Host req) (uint16 (fwd_Port req))) as Hf.
      destruct (deregisterService c (fwd_Host req) (uint16 (fwd_Port req))) as [[e|] c1];
        exact Hf.
  - unfold handleRequest.
    destruct (if (ReqType request =? "tcpip-forward")%string then _ else _) as [ok c'].
    simpl. destruct (WantReply request); split; intros H; try reflexivity;
      try discriminate; [eauto|destruct H; discriminate].
Qed.

(** X7. A [tcpip-forward] for a service not advertised before (wire
    port not 0), followed by a [cancel-tcpip-forward] with the same
    decoded host and port, is answered ok twice and gives back every
    answer of [lookupService]. *)
Theorem forward_then_cancel
    (c : Connection) (r1 r2 : Request) (req : forwardRequest) :
  ReqType r1 = "tcpip-forward"%string ->
  ReqType r2 = "cancel-tcpip-forward"%string ->
  unmarshalForwardRequest (Payload r1) = Some req ->
  unmarshalForwardRequest (Payload r2) = Some req ->
  fwd_Port req <> 0 ->
  lookupService c (fwd_Host req) (uint16 (fwd_Port req)) = false ->
  let c1 := fst (handleRequest c r1) in
  let c2 := fst (handleRequest c1 r2) in
  snd (handleRequest c r1) = replyOf r1 true /\
  snd (handleRequest c1 r2) = replyOf r2 true /\
  forall host port, lookupService c2 host port = lookupService c host port.
Proof.
  intros Ht1 Ht2 Hd1 Hd2 Hp Hfree c1 c2.
  destruct (register_then_deregister c _ _ Hfree) as [Hsame _].
  destruct (registerService_ok c _ _ Hfree) as (c' & Hr & _).
  assert (H1 : handleRequest c r1 = (c', replyOf r1 true)).
  { rewrite (handleRequest_forward c r1 req Ht1 Hd1).
    destruct (Z.eqb_spec (fwd_Port req) 0); [contradiction|]. now rewrite Hr. }
  unfold c2, c1. rewrite H1. simpl.
  rewrite (handleRequest_cancel c' r2 req Ht2 Hd2). simpl.
  split; [reflexivity|]. split; [reflexivity|].
  intros host port. rewrite Hr in Hsame. apply Hsame.
Qed.

Lemma forward_then_cancel_witness :
  let c := newConnection "alice" ∅ 0 in
  let c1 := fst (handleRequest c (tcpipForward "api" 80)) in
  let c2 := fst (handleRequest c1 (cancelTcpipForward "api" 80)) in
  lookupService c1 "api" 80 = true /\
  snd (handleRequest c1 (cancelTcpipForward "api" 80)) = Some true /\
  lookupService c2 "api" 80 = lookupService c "api" 80.
Proof.
  intros c c1 c2. split; [vm_compute; reflexivity|].
  destruct (forward_then_cancel c (tcpipForward "api" 80) (cancelTcpipForward "api" 80)
              (mkForwardRequest "api" 80)) as (_ & Hr & H).
  - reflexivity.
  - reflexivity.
  - vm_compute. reflexivity.
  - vm_compute. reflexivity.
  - discriminate.
  - vm_compute. reflexivity.
  - split; [exact Hr|apply H].
Defined.

(** X8. Wire ports that agree modulo 65536 name one service: after a
    [tcpip-forward] of port [p] was answered ok, a [tcpip-forward] of
    any [q] congruent to [p] is answered not-ok and changes nothing, and
    a [cancel-tcpip-forward] of such a [q] (0 included) removes the
    service registered for [p]. *)
Theorem forward_ports_collide
    (c : Connection) (host : string) (p q : Z) (r1 r2 r3 : Request) :
  ReqType r1 = "tcpip-forward"%string ->
  ReqType r2 = "tcpip-forward"%string ->
  ReqType r3 = "cancel-tcpip-forward"%string ->
  unmarshalForwardRequest (Payload r1) = Some (mkForwardRequest host p) ->
  unmarshalForwardRequest (Payload r2) = Some (mkForwardRequest host q) ->
  unmarshalForwardRequest (Payload r3) = Some (mkForwardRequest host q) ->
  p <> 0 -> p mod 65536 = q mod 65536 ->
  lookupService c host (uint16 p) = false ->
  let c1 := fst (handleRequest c r1) in
  lookupService c1 host (uint16 p) = true /\
  handleRequest c1 r2 = (c1, replyOf r2 false) /\
  lookupService (fst (handleRequest c1 r3)) host (uint16 p) = false.
Proof.
  intros Ht1 Ht2 Ht3 Hd1 Hd2 Hd3 Hp Hpq Hfree c1.
  destruct (registerService_ok c _ _ Hfree) as (c' & Hr & Hl & _).
  assert (H1 : handleRequest c r1 = (c', replyOf r1 true)).
  { rewrite (handleRequest_forward c r1 _ Ht1 Hd1). simpl.
    destruct (Z.eqb_spec p 0); [contradiction|]. now rewrite Hr. }
  assert (Hu : uint16 q = uint16 p) by (unfold uint16; congruence).
  unfold c1. rewrite H1. simpl. split; [exact Hl|]. split.
  - apply (handleRequest_duplicate_forward c' r2 _ Ht2 Hd2). simpl. now rewrite Hu.
  - rewrite (handleRequest_cancel c' r3 _ Ht3 Hd3). simpl. rewrite Hu.
    apply deregisterService_absent.
Qed.

Lemma forward_ports_collide_witness :
  let c1 := fst (handleRequest (newConnection "alice" ∅ 0) (tcpipForward "api" 65616)) in
  lookupService c1 "api" 80 = true /\
  handleRequest c1 (tcpipForward "api" 80) = (c1, Some false) /\
  lookupService (fst (handleRequest c1 (cancelTcpipForward "api" 80))) "api" 80 = false.
Proof.
  intros c1.
  apply (forward_ports_collide (newConnection "alice" ∅ 0) "api" 65616 80
           (tcpipForward "api" 65616) (tcpipForward "api" 80)
           (cancelTcpipForward "api" 80)).
  - reflexivity.
  - reflexivity.
  - reflexivity.
  - vm_compute. reflexivity.
  - vm_compute. reflexivity.
  - vm_compute. reflexivity.
  - discriminate.
  - reflexivity.
  - vm_compute. reflexivity.
Defined.

(** ** The published services *)

Section ServicesSnapshot.
Implicit Types (acc : gmap string (list Z)) (ports : list (Z * bool)).

Lemma collectPorts_other (host h : string) acc ports :
  h <> host -> collectPorts host acc ports !! h = acc !! h.
Proof.
  intros Hne. revert acc. induction ports as [|[p ok] rest IH]; intros acc; simpl;
    [reflexivity|].
  rewrite IH. destruct ok; simpl; [|reflexivity].
  now rewrite lookup_insert_ne by congruence.
Qed.

Lemma collectPorts_elem (host : string) acc ports (port : Z) :
  port ∈ default [] (collectPorts host acc ports !! host)
  <-> port ∈ default [] (acc !! host) \/ (port, true) ∈ ports.
Proof.
  revert acc. induction ports as [|[p ok] rest IH]; intros acc; simpl.
  - rewrite elem_of_nil. tauto.
  - rewrite IH, elem_of_cons. destruct ok; simpl.
    + rewrite lookup_insert_eq. simpl. rewrite elem_of_app, list_elem_of_singleton.
      split; [intros [[H| ->]|H]|intros [H|[H|H]]]; try tauto.
      injection H as ->. tauto.
    + split; [tauto|]. intros [H|[H|H]]; try tauto. discriminate.
Qed.

Lemma collectPorts_None (host : string) acc ports :
  collectPorts host acc ports !! host = None
  <-> acc !! host = None /\ forall port, (port, true) ∉ ports.
Proof.
  revert acc. induction ports as [|[p ok] rest IH]; intros acc; simpl.
  - split; [intros H; split; [exact H|]|tauto]. intros port Hin.
    now apply elem_of_nil in Hin.
  - rewrite IH. destruct ok; simpl.
    + rewrite lookup_insert_eq. split; [intros [H _]; discriminate|].
      intros [_ H]. exfalso. apply (H p). apply elem_of_cons. now left.
    + split; intros [Ha Hr]; (split; [exact Ha|]); intros port Hin.
      * apply elem_of_cons in Hin as [Hin|Hin]; [discriminate|]. now apply (Hr port).
      * apply (Hr port). apply elem_of_cons. now right.
Qed.

Lemma Services_fold_elem (hosts : list (string * gmap Z bool)) acc (host : string) (port : Z) :
  port ∈ default []
    (foldl (fun (acc : gmap string (list Z)) (hp : string * gmap Z bool) =>
              collectPorts (fst hp) acc (map_to_list (snd hp))) acc hosts !! host)
  <-> port ∈ default [] (acc !! host)
      \/ exists m, (host, m) ∈ hosts /\ m !! port = Some true.
Proof.
  revert acc. induction hosts as [|[h0 m0] rest IH]; intros acc; simpl.
  - split; [tauto|]. intros [H|(m & H & _)]; [exact H|]. now apply elem_of_nil in H.
  - rewrite IH. destruct (decide (host = h0)) as [->|Hne].
    + rewrite collectPorts_elem, elem_of_map_to_list. split.
      * intros [[H|H]|(m & H & Hm)]; [tauto| |].
        -- right. exists m0. split; [apply elem_of_cons; now left|exact H].
        -- right. exists m. split; [apply elem_of_cons; now right|exact Hm].
      * intros [H|(m & H & Hm)]; [tauto|].
        apply elem_of_cons in H as [H|H].
        -- injection H as <-. tauto.
        -- right. exists m. tauto.
    + rewrite collectPorts_other by exact Hne. split.
      * intros [H|(m & H & Hm)]; [tauto|].
        right. exists m. split; [apply elem_of_cons; now right|exact Hm].
      * intros [H|(m & H & Hm)]; [tauto|].
        apply elem_of_cons in H as [H|H]; [congruence|]. right. exists m. tauto.
Qed.

Lemma Services_fold_None (hosts : list (string * gmap Z bool)) acc (host : string) :
  foldl (fun (acc : gmap string (list Z)) (hp : string * gmap Z bool) =>
           collectPorts (fst hp) acc (map_to_list (snd hp))) acc hosts !! host = None
  <-> acc !! host = None
      /\ forall m port, (host, m) ∈ hosts -> m !! port <> Some true.
Proof.
  revert acc. induction hosts as [|[h0 m0] rest IH]; intros acc; simpl.
  - split; [intros H; split; [exact H|]|tauto]. intros m port Hin.
    now apply elem_of_nil in Hin.
  - rewrite IH. destruct (decide (host = h0)) as [->|Hne].
    + rewrite collectPorts_None. split.
      * intros [[Ha H0] Hr]. split; [exact Ha|]. intros m port Hin.
        apply elem_of_cons in Hin as [Hin|Hin]; [|now apply Hr].
        injection Hin as ->. intros Hm. apply (H0 port). now apply elem_of_map_to_list.
      * intros [Ha Hr]. split; [split; [exact Ha|]|].
        -- intros port Hin. apply elem_of_map_to_list in Hin.
           apply (Hr m0 port); [apply elem_of_cons; now left|exact Hin].
        -- intros m port Hin. apply Hr. apply elem_of_cons. now right.
    + rewrite collectPorts_other by exact Hne. split; intros [Ha Hr]; (split; [exact Ha|]).
      * intros m port Hin. apply elem_of_cons in Hin as [Hin|Hin]; [congruence|].
        now apply Hr.
      * intros m port Hin. apply Hr. apply elem_of_cons. now right.
Qed.
End ServicesSnapshot.

Lemma lookupService_true (c : Connection) (host : string) (port : Z) :
  lookupService c host port = true
  <-> exists m, services c !! host = Some m /\ m !! port = Some true.
Proof.
  unfold lookupService, port_flag. destruct (services c !! host) as [m|].
  - destruct (m !! port) as [[|]|] eqn:Ep; simpl; split; try discriminate; eauto.
    + intros (m' & Hm & Hp). congruence.
    + intros (m' & Hm & Hp). congruence.
  - split; [discriminate|]. intros (m & Hm & _). discriminate.
Qed.

(** X9. [Services] lists a port under a host exactly when
    [lookupService] answers true for it, and a host has no entry at all
    exactly when none of its ports is advertised; so a host left behind
    in [services] with an empty port map is not published. *)
Theorem Services_lists_advertised (c : Connection) (host : string) :
  (forall port, port ∈ default [] (Services c !! host)
                <-> lookupService c host port = true) /\
  (Services c !! host = None <-> forall port, lookupService c host port = false).
Proof.
  split.
  - intros port. unfold Services. rewrite Services_fold_elem, lookup_empty. simpl.
    rewrite elem_of_nil, lookupService_true. split.
    + intros [[]|(m & Hin & Hm)]. exists m. split; [|exact Hm].
      now apply elem_of_map_to_list in Hin.
    + intros (m & Hs & Hm). right. exists m. split; [|exact Hm].
      now apply elem_of_map_to_list.
  - unfold Services. rewrite Services_fold_None, lookup_empty. split.
    + intros [_ H] port. destruct (lookupService c host port) eqn:E; [|reflexivity].
      apply lookupService_true in E as (m & Hs & Hm). exfalso.
      apply (H m port); [now apply elem_of_map_to_list|exact Hm].
    + intros H. split; [reflexivity|]. intros m port Hin Hm.
      apply elem_of_map_to_list in Hin. specialize (H port).
      assert (lookupService c host port = true) by (apply lookupService_true; eauto).
      congruence.
Qed.

(** ** Sessions and tunnels of a connection *)

Lemma remove_ptr_absent (s : nat) (l : list nat) : s ∉ l -> remove_ptr s l = l.
Proof.
  induction l as [|x l IH]; intros Hs; simpl; [reflexivity|].
  apply not_elem_of_cons in Hs as [Hne Hs].
  destruct (Nat.eqb_spec x s); [congruence|]. simpl. now rewrite IH.
Qed.

Lemma remove_ptr_head (s : nat) (l : list nat) :
  remove_ptr s (s :: l) = remove_ptr s l.
Proof. simpl. now rewrite Nat.eqb_refl. Qed.

(** X10. [deleteSession] drops every occurrence of the session and
    keeps the others, and it counts a closed session on every call, also
    when the session was not on the list, where nothing else changes;
    deleting a session right after adding it restores the connection.
    [deleteTunnel] does the same for tunnels with its own counter.  Both
    counters wrap at 2^64. *)
Theorem delete_child_counts_every_call (c : Connection) (k : closedCounters) (x : nat) :
  ((forall y, y ∈ sessions (fst (deleteSession c k x)) <-> y ∈ sessions c /\ y <> x) /\
   sessionsClosed (snd (deleteSession c k x))
     = (sessionsClosed k + 1) mod 18446744073709551616 /\
   tunnelsClosed (snd (deleteSession c k x)) = tunnelsClosed k /\
   (x ∉ sessions c ->
      fst (deleteSession c k x) = c /\
      fst (deleteSession (addSession c x) k x) = c))
  /\
  ((forall y, y ∈ tunnels (fst (deleteTunnel c k x)) <-> y ∈ tunnels c /\ y <> x) /\
   tunnelsClosed (snd (deleteTunnel c k x))
     = (tunnelsClosed k + 1) mod 18446744073709551616 /\
   sessionsClosed (snd (deleteTunnel c k x)) = sessionsClosed k /\
   (x ∉ tunnels c ->
      fst (deleteTunnel c k x) = c /\
      fst (deleteTunnel (addTunnel c x) k x) = c)).
Proof.
  split; (split; [intros y; apply elem_of_remove_ptr|]);
    (split; [reflexivity|]); (split; [reflexivity|]); intros Hx.
  - unfold deleteSession, addSession. cbn [fst].
    change (sessions (set_sessions c (x :: sessions c))) with (x :: sessions c).
    rewrite remove_ptr_head, !remove_ptr_absent by exact Hx. split; now destruct c.
  - unfold deleteTunnel, addTunnel. cbn [fst].
    change (tunnels (set_tunnels c (x :: tunnels c))) with (x :: tunnels c).
    rewrite remove_ptr_head, !remove_ptr_absent by exact Hx. split; now destruct c.
Qed.

Lemma delete_child_counts_every_call_witness :
  let c := newConnection "alice" ∅ 0 in
  let k := mkClosedCounters 18446744073709551615 0 in
  fst (deleteSession c k 7) = c /\ sessionsClosed (snd (deleteSession c k 7)) = 0.
Proof.
  intros c k.
  destruct (delete_child_counts_every_call c k 7) as [(_ & Hk & _ & Hx) _].
  split; [|exact Hk]. apply Hx. vm_compute. apply not_elem_of_nil.
Defined.

(* ===================================================================== *)
(** * Further properties of channels                                     *)
(* ===================================================================== *)

(** ** What the channel handlers leave alone *)

Section ChannelFrame.
Context {A : Type} (g : Connection -> A).
Hypothesis g_addTunnel : forall conn t, g (addTunnel conn t) = g conn.
Hypothesis g_addSession : forall conn s, g (addSession conn s) = g conn.

Lemma alter_keeps (f : Connection -> Connection) (h : gmap nat Connection) (c s : nat) :
  (forall conn, g (f conn) = g conn) -> g <$> alter f c h !! s = g <$> h !! s.
Proof.
  intros Hf. destruct (decide (s = c)) as [->|Hne].
  - rewrite lookup_alter_eq. destruct (h !! c); simpl; [now rewrite Hf|reflexivity].
  - now rewrite lookup_alter_ne by congruence.
Qed.

Lemma handleSessionChannel_frame (c : nat) (nc : NewChannel) (env : ChannelEnv) (w : World) :
  let w' := snd (handleSessionChannel c nc env w) in
  gateway w' = gateway w /\ nextConn w' = nextConn w /\
  forall s, g <$> heap w' !! s = g <$> heap w !! s.
Proof.
  unfold handleSessionChannel.
  destruct (0 <? length (ExtraData nc))%nat; simpl; [tauto|].
  destruct (acceptOk env); simpl; [|tauto].
  split; [reflexivity|]. split; [reflexivity|]. intros s. now apply alter_keeps.
Qed.

Lemma handleTunnelChannel_frame (c : nat) (nc : NewChannel) (env : ChannelEnv) (w : World) :
  let w' := snd (handleTunnelChannel c nc env w) in
  gateway w' = gateway w /\ nextConn w' = nextConn w /\
  forall s, g <$> heap w' !! s = g <$> heap w !! s.
Proof.
  unfold handleTunnelChannel.
  destruct (unmarshalTunnelData (ExtraData nc)) as [data|]; simpl; [|tauto].
  destruct (lookupConnectionService w (Host data) (uint16 (Port data)))
    as [[[target|] host] port]; simpl; [|tauto].
  destruct (negb (admin_of w c)); simpl; [tauto|].
  unfold openTunnel. destruct (openOk env); simpl; [|tauto].
  destruct (acceptOk env); simpl; (split; [reflexivity|]); (split; [reflexivity|]);
    intros s; rewrite ?alter_keeps by auto; now rewrite ?alter_keeps by auto.
Qed.

Lemma handleChannel_frame (c : nat) (nc : NewChannel) (env : ChannelEnv) (w : World) :
  let w' := snd (handleChannel c nc env w) in
  gateway w' = gateway w /\ nextConn w' = nextConn w /\
  forall s, g <$> heap w' !! s = g <$> heap w !! s.
Proof.
  unfold handleChannel.
  pose proof (handleSessionChannel_frame c nc env w) as Hs.
  pose proof (handleTunnelChannel_frame c nc env w) as Ht.
  destruct (ChannelType nc =? "session")%string.
  - destruct (handleSessionChannel c nc env w) as [[[ok r] m] w1]. simpl in Hs.
    destruct ok; [exact Hs|]. destruct (acceptOk env); exact Hs.
  - destruct (ChannelType nc =? "direct-tcpip")%string.
    + destruct (handleTunnelChannel c nc env w) as [[[ok r] m] w1]. simpl in Ht.
      destruct ok; [exact Ht|]. destruct (acceptOk env); exact Ht.
    + simpl. destruct (acceptOk env); simpl; tauto.
Qed.
End ChannelFrame.

(** ** Lookups depend on the registry and the services only *)

Lemma LookupService_services (h h' : gmap nat Connection) (s : nat) :
  services <$> h' !! s = services <$> h !! s ->
  forall host port, LookupService h' s host port = LookupService h s host port.
Proof.
  intros Hs host port. unfold LookupService, lookupService.
  destruct (h' !! s) as [a|], (h !! s) as [b|]; simpl in Hs; try discriminate;
    [|reflexivity].
  injection Hs as ->. reflexivity.
Qed.

Lemma scanSessions_ext (h h' : gmap nat Connection) (l : list nat) (host : string) (port : Z) :
  (forall s, LookupService h' s host port = LookupService h s host port) ->
  scanSessions h' l host port = scanSessions h l host port.
Proof.
  intros Hs. induction l as [|s l IH]; simpl; [reflexivity|]. now rewrite Hs, IH.
Qed.

Lemma LookupSessionService_ext (w w' : World) (port : Z) :
  (forall u host, scanSessions (heap w') (index_at (gateway w') u) host port
                  = scanSessions (heap w) (index_at (gateway w) u) host port) ->
  forall full, LookupSessionService w' full port = LookupSessionService w full port.
Proof.
  intros Hscan full. unfold LookupSessionService.
  generalize (seq 0 (length (Split full dot))) as indices.
  induction indices as [|i rest IH]; simpl; [reflexivity|].
  now rewrite Hscan, IH.
Qed.

Lemma same_directory_lookup (w w' : World) :
  gateway w' = gateway w ->
  (forall s, services <$> heap w' !! s = services <$> heap w !! s) ->
  forall full port, lookupConnectionService w' full port = lookupConnectionService w full port.
Proof.
  intros Hg Hs full port. apply LookupSessionService_ext. intros u host.
  rewrite Hg. apply scanSessions_ext. intros s. now apply LookupService_services.
Qed.

Lemma same_identity_wf (w w' : World) :
  gateway w' = gateway w -> nextConn w' = nextConn w ->
  (forall s, user <$> heap w' !! s = user <$> heap w !! s) ->
  (forall s, closeOnce <$> heap w' !! s = closeOnce <$> heap w !! s) ->
  wf w -> wf w'.
Proof.
  intros Hg Hn Hu Ho. apply wf_same_registry; [exact Hg|exact Hn|].
  intros s. specialize (Hu s). specialize (Ho s).
  destruct (heap w !! s), (heap w' !! s); simpl in *; try discriminate; [|exact I].
  split; congruence.
Qed.

(** X11. Handling a channel, of whatever type and with whatever
    outcome, leaves the gateway's list and index alone and keeps the
    services, the admin flag and the last-used stamp of every
    connection: every lookup gives the same result after as before, and
    the gateway invariant is kept. *)
Theorem handleChannel_keeps_directory
    (c : nat) (nc : NewChannel) (env : ChannelEnv) (w : World) :
  let w' := snd (handleChannel c nc env w) in
  gateway w' = gateway w /\
  (forall full port,
     lookupConnectionService w' full port = lookupConnectionService w full port) /\
  (forall s, admin_of w' s = admin_of w s) /\
  (forall s, Used w' s = Used w s) /\
  (wf w -> wf w').
Proof.
  intros w'.
  destruct (handleChannel_frame services (fun _ _ => eq_refl) (fun _ _ => eq_refl)
              c nc env w) as (Hg & Hn & Hserv).
  destruct (handleChannel_frame admin (fun _ _ => eq_refl) (fun _ _ => eq_refl)
              c nc env w) as (_ & _ & Hadm).
  destruct (handleChannel_frame used (fun _ _ => eq_refl) (fun _ _ => eq_refl)
              c nc env w) as (_ & _ & Hused).
  destruct (handleChannel_frame user (fun _ _ => eq_refl) (fun _ _ => eq_refl)
              c nc env w) as (_ & _ & Huser).
  destruct (handleChannel_frame closeOnce (fun _ _ => eq_refl) (fun _ _ => eq_refl)
              c nc env w) as (_ & _ & Honce).
  fold w' in Hg, Hn, Hserv, Hadm, Hused, Huser, Honce.
  split; [exact Hg|]. split; [now apply same_directory_lookup|].
  split; [|split; [|now apply same_identity_wf]].
  - intros s. unfold admin_of. specialize (Hadm s).
    destruct (heap w' !! s), (heap w !! s); simpl in Hadm; congruence.
  - intros s. unfold Used. specialize (Hused s).
    destruct (heap w' !! s), (heap w !! s); simpl in Hused; congruence.
Qed.

Lemma handleChannel_keeps_directory_witness :
  let w' := snd (handleChannel 0 (directTcpip "api.alice" 80 "1.2.3.4" 5)
                   (mkChannelEnv true true) world_guest) in
  wf w' /\ lookupConnectionService w' "api.alice" 80 = (Some 0%nat, "api"%string, 80).
Proof.
  intros w'.
  destruct (handleChannel_keeps_directory 0 (directTcpip "api.alice" 80 "1.2.3.4" 5)
              (mkChannelEnv true true) world_guest) as (_ & Hl & _ & _ & Hwf).
  split.
  - apply Hwf. apply wf_HandleConnection, wf_connectAndForward, wf_initWorld.
  - exact (eq_trans (Hl "api.alice"%string 80) eq_refl).
Defined.

(** ** Session channels *)

(** X12. A session channel that carries extra data is refused with
    [Prohibited] and nothing happens.  Without extra data the handler
    accepts it and reports ok whatever the admin flag, also when
    [Accept] fails; when [Accept] succeeds one fresh session is put at
    the head of the connection's sessions, and otherwise no list
    changes. *)
Theorem handleSessionChannel_outcomes
    (c : nat) (nc : NewChannel) (env : ChannelEnv) (w : World) :
  (ExtraData nc <> [] ->
   handleSessionChannel c nc env w
   = ((false, Prohibited, "extra data not allowed"%string), w)) /\
  (ExtraData nc = [] ->
   let w' := snd (handleSessionChannel c nc env w) in
   fst (handleSessionChannel c nc env w) = (true, 0, EmptyString) /\
   trace w' = trace w ++ [EvAccept c] /\
   (forall s, tunnels <$> heap w' !! s = tunnels <$> heap w !! s) /\
   (forall s, s <> c -> heap w' !! s = heap w !! s) /\
   sessions <$> heap w' !! c
   = (if acceptOk env
      then (fun conn => nextTunnel w :: sessions conn) <$> heap w !! c
      else sessions <$> heap w !! c)).
Proof.
  unfold handleSessionChannel. split.
  - intros Hx. destruct (ExtraData nc); [congruence|reflexivity].
  - intros ->. simpl. destruct (acceptOk env); simpl.
    + split; [reflexivity|]. split; [reflexivity|]. split; [|split].
      * intros s. now apply alter_keeps.
      * intros s Hne. now rewrite lookup_alter_ne by congruence.
      * rewrite lookup_alter_eq. now destruct (heap w !! c).
    + repeat split; reflexivity.
Qed.

Lemma handleSessionChannel_outcomes_witness :
  handleSessionChannel 1 (mkNewChannel "session" [Byte.x00]) (mkChannelEnv true true)
    world_guest
  = ((false, Prohibited, "extra data not allowed"%string), world_guest) /\
  sessions <$> heap (snd (handleSessionChannel 1 (mkNewChannel "session" [])
                            (mkChannelEnv true true) world_guest)) !! 1%nat
  = Some [0%nat].
Proof.
  split.
  - apply (handleSessionChannel_outcomes 1 (mkNewChannel "session" [Byte.x00])).
    discriminate.
  - destruct (handleSessionChannel_outcomes 1 (mkNewChannel "session" [])
                (mkChannelEnv true true) world_guest) as [_ H].
    destruct (H eq_refl) as (_ & _ & _ & _ & Hs).
    exact (eq_trans Hs eq_refl).
Defined.

(** X13. A session accepted on an open connection is the first thing
    closed when that connection is closed: [Close] then asks for the
    close of the new session, followed by everything it would have
    closed before the session was accepted. *)
Theorem accepted_session_closed_by_Close
    (c : nat) (nc : NewChannel) (env : ChannelEnv) (w : World) (conn : Connection) :
  heap w !! c = Some conn -> closeOnce conn = false ->
  ExtraData nc = [] -> acceptOk env = true ->
  let w1 := snd (handleSessionChannel c nc env w) in
  trace (Close c w1)
  = trace w1 ++ EvSessionClose (nextTunnel w) :: teardownEvents c conn.
Proof.
  intros Hc Hopen Hx Hacc w1.
  assert (H1 : heap w1 !! c = Some (addSession conn (nextTunnel w))).
  { unfold w1, handleSessionChannel. rewrite Hx, Hacc. simpl.
    now rewrite lookup_alter_eq, Hc. }
  now rewrite (Close_trace c w1 _ H1 Hopen).
Qed.

Lemma accepted_session_closed_by_Close_witness :
  trace (Close 1 (snd (handleSessionChannel 1 (mkNewChannel "session" [])
                         (mkChannelEnv true true) world_guest)))
  = [EvAccept 1; EvSessionClose 0; EvConnClose 1].
Proof.
  rewrite (accepted_session_closed_by_Close 1 (mkNewChannel "session" [])
             (mkChannelEnv true true) world_guest (newConnection "guest" ∅ 0));
    vm_compute; reflexivity.
Defined.

(** ** Tunnel channels *)

(** X14. [handleTunnelChannel] reports ok exactly when the payload
    decodes, the lookup finds a service, the caller has the admin flag
    and the channel to the target can be opened; whether the caller's
    own channel can then be accepted plays no part.  With a payload that
    does not decode it answers [UnknownChannelType] and changes
    nothing. *)
Theorem handleTunnelChannel_ok_iff
    (c : nat) (nc : NewChannel) (env : ChannelEnv) (w : World) :
  (fst (fst (fst (handleTunnelChannel c nc env w))) = true
   <-> exists data target host port,
         unmarshalTunnelData (ExtraData nc) = Some data /\
         lookupConnectionService w (Host data) (uint16 (Port data))
           = (Some target, host, port) /\
         admin_of w c = true /\ openOk env = true) /\
  (unmarshalTunnelData (ExtraData nc) = None ->
   handleTunnelChannel c nc env w
   = ((false, UnknownChannelType, "failed to decode extra data"%string), w)).
Proof.
  unfold handleTunnelChannel. split; [|intros ->; reflexivity].
  destruct (unmarshalTunnelData (ExtraData nc)) as [data|] eqn:Hd; simpl;
    [|split; [discriminate|intros (? & ? & ? & ? & H & _); discriminate]].
  destruct (lookupConnectionService w (Host data) (uint16 (Port data)))
    as [[[target|] host] port] eqn:Hl; simpl.
  - destruct (admin_of w c) eqn:Hadm; simpl.
    + unfold openTunnel. destruct (openOk env) eqn:Hopen; simpl.
      * assert (Hex : exists data0 target0 host0 port0,
                  Some data = Some data0 /\
                  lookupConnectionService w (Host data0) (uint16 (Port data0))
                    = (Some target0, host0, port0) /\ true = true /\ true = true)
          by (exists data, target, host, port; repeat split; exact Hl).
        destruct (acceptOk env); simpl; (split; [intros _; exact Hex|reflexivity]).
      * split; [discriminate|]. intros (? & ? & ? & ? & _ & _ & _ & H). discriminate.
    + split; [discriminate|]. intros (? & ? & ? & ? & _ & _ & H & _). discriminate.
  - split; [discriminate|]. intros (d & ? & ? & ? & Hd' & Hl' & _).
    injection Hd' as <-. rewrite Hl in Hl'. discriminate.
Qed.

(** X15. When both ssh calls succeed, the handler allocates two fresh
    tunnels, the first at the head of the target's tunnels and the
    second at the head of the caller's (both on the one list when the
    caller is its own target); it asks for the channel on the target
    before it accepts the caller's, and no other connection changes. *)
Theorem handleTunnelChannel_wires_both
    (c : nat) (nc : NewChannel) (env : ChannelEnv) (w : World) (data : tunnelData)
    (target : nat) (host' : string) (port' : Z) :
  unmarshalTunnelData (ExtraData nc) = Some data ->
  lookupConnectionService w (Host data) (uint16 (Port data)) = (Some target, host', port') ->
  admin_of w c = true -> openOk env = true -> acceptOk env = true ->
  let w' := snd (handleTunnelChannel c nc env w) in
  let t := nextTunnel w in
  nextTunnel w' = S (S t) /\
  (exists payload,
     trace w' = trace w ++ [EvOpenChannel target "forwarded-tcpip" payload; EvAccept c]) /\
  (forall s, s <> c -> s <> target -> heap w' !! s = heap w !! s) /\
  (target <> c ->
     tunnels <$> heap w' !! target = (fun conn => t :: tunnels conn) <$> heap w !! target /\
     tunnels <$> heap w' !! c = (fun conn => S t :: tunnels conn) <$> heap w !! c) /\
  (target = c ->
     tunnels <$> heap w' !! c = (fun conn => S t :: t :: tunnels conn) <$> heap w !! c).
Proof.
  intros Hd Hl Hadm Hopen Hacc. unfold handleTunnelChannel, openTunnel.
  rewrite Hd, Hl, Hadm, Hopen, Hacc. simpl.
  split; [reflexivity|]. split; [eexists; now rewrite <- app_assoc|].
  split; [|split].
  - intros s Hc Ht. now rewrite !lookup_alter_ne by congruence.
  - intros Hne. split.
    + rewrite lookup_alter_ne by congruence. rewrite lookup_alter_eq.
      now destruct (heap w !! target).
    + rewrite lookup_alter_eq, lookup_alter_ne by congruence.
      now destruct (heap w !! c).
  - intros ->. rewrite !lookup_alter_eq. now destruct (heap w !! c).
Qed.

Lemma handleTunnelChannel_wires_both_witness :
  let w' := snd (handleTunnelChannel 0 (directTcpip "api.alice" 80 "1.2.3.4" 5)
                   (mkChannelEnv true true) world_guest) in
  nextTunnel w' = 2%nat /\ tunnels <$> heap w' !! 0%nat = Some [1%nat; 0%nat].
Proof.
  intros w'.
  destruct (handleTunnelChannel_wires_both 0 (directTcpip "api.alice" 80 "1.2.3.4" 5)
              (mkChannelEnv true true) world_guest
              (mkTunnelData "api.alice" 80 "1.2.3.4" 5) 0 "api" 80)
    as (Hn & _ & _ & _ & Hself); try (vm_compute; reflexivity).
  split; [exact Hn|]. exact (eq_trans (Hself eq_refl) eq_refl).
Defined.

(** X16. When the target refuses the channel, the handler answers
    [ConnectionFailed] without accepting the caller's channel and
    without changing any connection.  When the target's channel is open
    but the caller's [Accept] fails, the handler still reports ok, the
    tunnel just opened on the target is closed, and the caller gets no
    tunnel. *)
Theorem handleTunnelChannel_ssh_failures
    (c : nat) (nc : NewChannel) (env : ChannelEnv) (w : World) (data : tunnelData)
    (target : nat) (host' : string) (port' : Z) :
  unmarshalTunnelData (ExtraData nc) = Some data ->
  lookupConnectionService w (Host data) (uint16 (Port data)) = (Some target, host', port') ->
  admin_of w c = true ->
  let r := handleTunnelChannel c nc env w in
  (openOk env = false ->
     fst r = (false, ConnectionFailed, "failed to connect"%string) /\
     heap (snd r) = heap w /\
     exists payload,
       trace (snd r) = trace w ++ [EvOpenChannel target "forwarded-tcpip" payload]) /\
  (openOk env = true -> acceptOk env = false ->
     fst r = (true, 0, EmptyString) /\
     (exists payload,
        trace (snd r) = trace w ++ [EvOpenChannel target "forwarded-tcpip" payload;
                                    EvAccept c; EvTunnelClose (nextTunnel w)]) /\
     heap (snd r) = alter (fun conn => addTunnel conn (nextTunnel w)) target (heap w)).
Proof.
  intros Hd Hl Hadm r. unfold r, handleTunnelChannel, openTunnel.
  rewrite Hd, Hl, Hadm. simpl. split.
  - intros ->. simpl. split; [reflexivity|]. split; [reflexivity|]. eexists. reflexivity.
  - intros -> ->. simpl. split; [reflexivity|]. split; [|reflexivity].
    eexists. now rewrite <- !app_assoc.
Qed.

Lemma handleTunnelChannel_ssh_failures_witness :
  fst (handleTunnelChannel 0 (directTcpip "api.alice" 80 "1.2.3.4" 5)
         (mkChannelEnv false true) world_guest)
  = (false, ConnectionFailed, "failed to connect"%string) /\
  fst (handleTunnelChannel 0 (directTcpip "api.alice" 80 "1.2.3.4" 5)
         (mkChannelEnv true false) world_guest)
  = (true, 0, EmptyString).
Proof.
  assert (Hd : unmarshalTunnelData (ExtraData (directTcpip "api.alice" 80 "1.2.3.4" 5))
               = Some (mkTunnelData "api.alice" 80 "1.2.3.4" 5))
    by (vm_compute; reflexivity).
  assert (Hl : lookupConnectionService world_guest "api.alice" (uint16 80)
               = (Some 0%nat, "api"%string, 80)) by (vm_compute; reflexivity).
  assert (Hadm : admin_of world_guest 0 = true) by (vm_compute; reflexivity).
  split.
  - destruct (handleTunnelChannel_ssh_failures 0 _ (mkChannelEnv false true) world_guest
                _ 0 "api" 80 Hd Hl Hadm) as [H _].
    now destruct (H eq_refl).
  - destruct (handleTunnelChannel_ssh_failures 0 _ (mkChannelEnv true false) world_guest
                _ 0 "api" 80 Hd Hl Hadm) as [_ H].
    now destruct (H eq_refl eq_refl).
Defined.

(** ** The dispatcher *)

Lemma handleSessionChannel_accepts_once
    (c : nat) (nc : NewChannel) (env : ChannelEnv) (w : World) :
  let r := handleSessionChannel c nc env w in
  if fst (fst (fst r)) then trace (snd r) = trace w ++ [EvAccept c]
  else trace (snd r) = trace w.
Proof.
  unfold handleSessionChannel.
  destruct (0 <? length (ExtraData nc))%nat; simpl; [reflexivity|].
  destruct (acceptOk env); reflexivity.
Qed.

Lemma handleTunnelChannel_accepts_once
    (c : nat) (nc : NewChannel) (env : ChannelEnv) (w : World) :
  let r := handleTunnelChannel c nc env w in
  exists pre post,
    (forall c', EvAccept c' ∉ pre) /\ (forall c', EvAccept c' ∉ post) /\
    if fst (fst (fst r)) then trace (snd r) = trace w ++ pre ++ EvAccept c :: post
    else trace (snd r) = trace w ++ pre /\ post = [].
Proof.
  unfold handleTunnelChannel.
  assert (Hnil : forall c', EvAccept c' ∉ @nil Event) by (intros c'; apply not_elem_of_nil).
  destruct (unmarshalTunnelData (ExtraData nc)) as [data|]; simpl;
    [|exists [], []; rewrite app_nil_r; tauto].
  destruct (lookupConnectionService w (Host data) (uint16 (Port data)))
    as [[[target|] host] port]; simpl; [|exists [], []; rewrite app_nil_r; tauto].
  destruct (negb (admin_of w c)); simpl; [exists [], []; rewrite app_nil_r; tauto|].
  unfold openTunnel.
  set (ev := EvOpenChannel target "forwarded-tcpip"
               (marshalTunnelData (mkTunnelData host (uint32 port)
                                     (OriginAddress data) (OriginPort data)))).
  assert (Hev : forall c', EvAccept c' ∉ [ev]).
  { intros c' H. apply list_elem_of_singleton in H. discriminate. }
  destruct (openOk env); simpl.
  - destruct (acceptOk env); simpl.
    + exists [ev], []. rewrite <- app_assoc. tauto.
    + exists [ev], [EvTunnelClose (nextTunnel w)]. rewrite <- !app_assoc.
      split; [exact Hev|]. split; [|reflexivity].
      intros c' H. apply list_elem_of_singleton in H. discriminate.
  - exists [ev], []. tauto.
Qed.

(** X17. On every path through [handleChannel], [Accept] is called on
    the incoming channel exactly once: by the handler that takes it, or
    else by the rejection, which accepts the channel and closes it at
    once.  A channel that is refused for its type, its payload, a
    missing service or a missing permission is therefore still accepted
    on the wire, and the reason stays with the gateway. *)
Theorem handleChannel_accepts_exactly_once
    (c : nat) (nc : NewChannel) (env : ChannelEnv) (w : World) :
  exists pre post,
    trace (snd (handleChannel c nc env w)) = trace w ++ pre ++ EvAccept c :: post /\
    (forall c', EvAccept c' ∉ pre) /\ (forall c', EvAccept c' ∉ post).
Proof.
  assert (Hnil : forall c', EvAccept c' ∉ @nil Event) by (intros c'; apply not_elem_of_nil).
  unfold handleChannel.
  destruct (ChannelType nc =? "session")%string.
  - pose proof (handleSessionChannel_accepts_once c nc env w) as H. simpl in H.
    destruct (handleSessionChannel c nc env w) as [[[ok r] m] w1]. simpl in H.
    exists [], []. destruct ok; simpl; [now rewrite H|].
    destruct (acceptOk env); simpl; now rewrite H.
  - destruct (ChannelType nc =? "direct-tcpip")%string.
    + destruct (handleTunnelChannel_accepts_once c nc env w) as (pre & post & Hp & Hq & H).
      destruct (handleTunnelChannel c nc env w) as [[[ok r] m] w1]. simpl in H.
      destruct ok; simpl.
      * exists pre, post. tauto.
      * destruct H as [H ->]. exists pre, [].
        destruct (acceptOk env); simpl; rewrite H, <- app_assoc; tauto.
    + exists [], []. destruct (acceptOk env); simpl; tauto.
Qed.

(** X18. A channel whose type is neither [session] nor
    [direct-tcpip] is refused as [UnknownChannelType] by accepting and
    closing it; no connection and no part of the gateway changes. *)
Theorem handleChannel_unknown_type
    (c : nat) (nc : NewChannel) (env : ChannelEnv) (w : World) :
  ChannelType nc <> "session"%string ->
  ChannelType nc <> "direct-tcpip"%string ->
  fst (handleChannel c nc env w)
  = (if acceptOk env
     then AcceptedThenClosed UnknownChannelType "unknown channel type"
     else RejectFailed UnknownChannelType "unknown channel type") /\
  snd (handleChannel c nc env w) = emit [EvAccept c] w.
Proof.
  intros H1 H2. apply String.eqb_neq in H1, H2. unfold handleChannel.
  rewrite H1, H2. destruct (acceptOk env); split; reflexivity.
Qed.

Lemma handleChannel_unknown_type_witness :
  handleChannel 1 (mkNewChannel "x11" []) (mkChannelEnv true true) world_guest
  = (AcceptedThenClosed UnknownChannelType "unknown channel type",
     emit [EvAccept 1] world_guest).
Proof.
  destruct (handleChannel_unknown_type 1 (mkNewChannel "x11" []) (mkChannelEnv true true)
              world_guest) as [Hf Hw]; try discriminate.
  rewrite (surjective_pairing (handleChannel _ _ _ _)), Hf, Hw. reflexivity.
Defined.

(* ===================================================================== *)
(** * Further properties of the gateway                                  *)
(* ===================================================================== *)

(** ** Connecting *)

Section Connecting.
Variables (name : string) (extensions : gmap string string) (now : Z) (w : World).
Hypothesis Hwf : wf w.

Let p := fst (HandleConnection name extensions now w).
Let w' := snd (HandleConnection name extensions now w).

Lemma HandleConnection_fresh : heap w !! p = None.
Proof.
  destruct (heap w !! p) eqn:E; [|reflexivity].
  assert (p < nextConn w)%nat by (apply (wf_fresh w Hwf); eauto).
  unfold p in *. simpl in *. lia.
Qed.

Lemma HandleConnection_heap :
  heap w' = <[p := newConnection name extensions now]> (heap w).
Proof.
  unfold w', p, HandleConnection, AddSession. simpl. now rewrite lookup_insert_eq.
Qed.

Lemma HandleConnection_list :
  sessionsList (gateway w') = p :: sessionsList (gateway w).
Proof.
  unfold w', p, HandleConnection, AddSession. simpl. now rewrite lookup_insert_eq.
Qed.

Lemma HandleConnection_index (u : string) :
  index_at (gateway w') u
  = if decide (u = name) then p :: index_at (gateway w) u else index_at (gateway w) u.
Proof.
  unfold w', p, HandleConnection, AddSession. simpl. rewrite lookup_insert_eq.
  unfold index_at at 1. simpl. destruct (decide (u = name)) as [->|Hne].
  - now rewrite lookup_insert_eq.
  - now rewrite lookup_insert_ne by congruence.
Qed.

Lemma HandleConnection_LookupService (s : nat) (host : string) (port : Z) :
  LookupService (heap w') s host port = LookupService (heap w) s host port.
Proof.
  unfold LookupService. rewrite HandleConnection_heap.
  destruct (decide (s = p)) as [->|Hne].
  - rewrite lookup_insert_eq, HandleConnection_fresh.
    unfold lookupService. simpl. now rewrite lookup_empty.
  - now rewrite lookup_insert_ne by congruence.
Qed.

Lemma HandleConnection_lookup (full : string) (port : Z) :
  lookupConnectionService w' full port = lookupConnectionService w full port.
Proof.
  apply LookupSessionService_ext. intros u host. rewrite HandleConnection_index.
  destruct (decide (u = name)); simpl.
  - rewrite HandleConnection_LookupService. unfold LookupService at 1.
    rewrite HandleConnection_fresh.
    apply scanSessions_ext; intros s; apply HandleConnection_LookupService.
  - apply scanSessions_ext; intros s; apply HandleConnection_LookupService.
Qed.
End Connecting.

(** X19. Under the gateway invariant, [HandleConnection] allocates a
    pointer that was not in use, puts it at the head of the flat list
    and of its user's list, and gives it the admin flag exactly when the
    permissions carry [permit-port-forwarding].  No other connection
    changes, and since the newcomer advertises nothing, every lookup
    gives the same result as before.  The invariant is kept. *)
Theorem HandleConnection_registers
    (name : string) (extensions : gmap string string) (now : Z) (w : World) :
  wf w ->
  let p := fst (HandleConnection name extensions now w) in
  let w' := snd (HandleConnection name extensions now w) in
  heap w !! p = None /\
  sessionsList (gateway w') = p :: sessionsList (gateway w) /\
  index_at (gateway w') name = p :: index_at (gateway w) name /\
  (admin_of w' p = true <-> is_Some (extensions !! "permit-port-forwarding"%string)) /\
  (forall s, s <> p -> heap w' !! s = heap w !! s) /\
  (forall full port,
     lookupConnectionService w' full port = lookupConnectionService w full port) /\
  wf w'.
Proof.
  intros Hwf p w'.
  split; [now apply HandleConnection_fresh|].
  split; [apply HandleConnection_list|].
  split; [unfold w', p; rewrite HandleConnection_index;
          destruct (decide (name = name)); [reflexivity|congruence]|].
  split; [|split; [|split]].
  - unfold admin_of, w'. rewrite HandleConnection_heap, lookup_insert_eq. simpl.
    destruct (extensions !! "permit-port-forwarding"%string); split; eauto;
      try discriminate. intros [x Hx]. discriminate.
  - intros s Hne. unfold w'. rewrite HandleConnection_heap.
    now rewrite lookup_insert_ne by (unfold p in Hne; congruence).
  - intros full port. now apply HandleConnection_lookup.
  - now apply wf_HandleConnection.
Qed.

Lemma HandleConnection_registers_witness :
  let w' := snd (HandleConnection "carol" permitForwarding 0 world_guest) in
  sessionsList (gateway w') = [2%nat; 1%nat; 0%nat] /\
  admin_of w' 2 = true /\
  lookupConnectionService w' "api.alice" 80 = (Some 0%nat, "api"%string, 80).
Proof.
  intros w'.
  destruct (HandleConnection_registers "carol" permitForwarding 0 world_guest)
    as (_ & Hl & _ & Ha & _ & Hlk & _).
  - apply wf_HandleConnection, wf_connectAndForward, wf_initWorld.
  - split; [exact (eq_trans Hl eq_refl)|]. split.
    + apply Ha. vm_compute. eauto.
    + exact (eq_trans (Hlk "api.alice"%string 80) eq_refl).
Defined.

(** ** Resolving *)

Lemma lookup_hits_advertiser
    (w : World) (c : nat) (conn : Connection) (host : string) (port : Z) :
  heap w !! c = Some conn -> registered w c (user conn) ->
  lookupService conn host port = true ->
  exists s h,
    lookupConnectionService w (host +:+ String dot (user conn)) port = (Some s, h, port) /\
    advertises w s h port.
Proof.
  intros Hc Hreg Hsvc.
  destruct (partition_at_host host (user conn)) as (Hi0 & Hhost0 & Huser0).
  apply list_elem_of_lookup in Hreg as [jc Hjc].
  pose proof (LookupSessionService_first w (host +:+ String dot (user conn)) port) as H.
  simpl in H. unfold lookupConnectionService.
  destruct (LookupSessionService w (host +:+ String dot (user conn)) port) as [[[s|] h] p].
  - destruct H as (i & j & _ & _ & -> & _ & Hs & _). now exists s, h.
  - destruct H as (_ & _ & Hall). exfalso.
    apply (Hall _ Hi0 jc c); [now rewrite Huser0|].
    rewrite Hhost0. unfold advertises, LookupService. now rewrite Hc.
Qed.

Lemma registerService_None_advertises (c c1 : Connection) (host : string) (port : Z) :
  registerService c host port = (None, c1) ->
  lookupService c1 host port = true /\ user c1 = user c.
Proof.
  intros Hr. destruct (lookupService c host port) eqn:E.
  - rewrite (registerService_taken c host port E) in Hr. discriminate.
  - destruct (registerService_ok c host port E) as (c' & Hr' & Hl & Hu & _).
    rewrite Hr' in Hr. injection Hr as <-. now split.
Qed.

(** X20. Whenever a registered connection's [tcpip-forward] request
    is answered ok, the service resolves: the lookup of
    [host + "." + user] at the [uint16] of the wire port returns a
    connection that advertises the returned host at that port. *)
Theorem forward_ok_makes_resolvable
    (w : World) (c : nat) (conn : Connection) (request : Request) (req : forwardRequest) :
  heap w !! c = Some conn -> registered w c (user conn) ->
  ReqType request = "tcpip-forward"%string ->
  unmarshalForwardRequest (Payload request) = Some req ->
  snd (handleRequestAt c request w) = Some true ->
  let w' := fst (handleRequestAt c request w) in
  exists s h,
    lookupConnectionService w' (fwd_Host req +:+ String dot (user conn))
      (uint16 (fwd_Port req)) = (Some s, h, uint16 (fwd_Port req)) /\
    advertises w' s h (uint16 (fwd_Port req)).
Proof.
  intros Hc Hreg Ht Hd Hok w'. unfold w'. unfold handleRequestAt in *. rewrite Hc in *.
  rewrite (handleRequest_forward conn request req Ht Hd) in *.
  destruct (fwd_Port req =? 0).
  { simpl in Hok. unfold replyOf in Hok. destruct (WantReply request); discriminate. }
  destruct (registerService conn (fwd_Host req) (uint16 (fwd_Port req)))
    as [[e|] c1] eqn:Hr; simpl in Hok |- *.
  { unfold replyOf in Hok. destruct (WantReply request); discriminate. }
  destruct (registerService_None_advertises _ _ _ _ Hr) as [Hl Hu].
  rewrite <- Hu.
  apply (lookup_hits_advertiser _ c c1); [apply lookup_insert_eq| |exact Hl].
  unfold registered. simpl. now rewrite Hu.
Qed.

Lemma forward_ok_makes_resolvable_witness :
  let w' := fst (handleRequestAt 1 (tcpipForward "db" 5432) world_guest) in
  exists s h, lookupConnectionService w' "db.guest" 5432 = (Some s, h, 5432) /\
              advertises w' s h 5432.
Proof.
  intros w'.
  apply (forward_ok_makes_resolvable world_guest 1 (newConnection "guest" ∅ 0)
           (tcpipForward "db" 5432) (mkForwardRequest "db" 5432)).
  - vm_compute. reflexivity.
  - unfold registered. vm_compute. constructor.
  - reflexivity.
  - vm_compute. reflexivity.
  - vm_compute. reflexivity.
Defined.

(** X21. Under the gateway invariant a closed connection is never
    resolved: after [Close] no lookup, for any host and port, returns
    it. *)
Theorem closed_connection_never_resolved
    (w : World) (c : nat) (full : string) (port : Z) :
  wf w ->
  fst (fst (lookupConnectionService (Close c w) full port)) <> Some c.
Proof.
  intros Hwf. destruct (Close_absent c w Hwf) as [_ Hreg].
  pose proof (LookupSessionService_first (Close c w) full port) as H. simpl in H.
  unfold lookupConnectionService.
  destruct (LookupSessionService (Close c w) full port) as [[[s|] h] p]; simpl;
    [|discriminate].
  destruct H as (i & j & _ & _ & _ & Hj & _). intros [= ->].
  apply (Hreg (userAt (Split full dot) i)). unfold registered.
  apply list_elem_of_lookup. eauto.
Qed.

Lemma closed_connection_never_resolved_witness :
  lookupConnectionService world_alice "api.alice" 80 = (Some 0%nat, "api"%string, 80) /\
  fst (fst (lookupConnectionService (Close 0 world_alice) "api.alice" 80)) <> Some 0%nat.
Proof.
  split; [vm_compute; reflexivity|].
  apply closed_connection_never_resolved. apply wf_connectAndForward, wf_initWorld.
Defined.

Lemma append_cancel_r (a b c : string) : a +:+ c = b +:+ c -> a = b.
Proof.
  revert b. induction a as [|x a IH]; intros [|y b] H.
  - reflexivity.
  - apply (f_equal String.length) in H. rewrite !length_append in H.
    simpl in H. lia.
  - apply (f_equal String.length) in H. rewrite !length_append in H.
    simpl in H. lia.
  - change (String x (a +:+ c) = String y (b +:+ c)) in H.
    injection H as -> H. f_equal. now apply IH.
Qed.

Lemma partition_recomposes (full : string) (i : nat) :
  (i < length (Split full dot))%nat ->
  (i = 0%nat /\ hostAt (Split full dot) i = EmptyString /\ userAt (Split full dot) i = full)
  \/ hostAt (Split full dot) i +:+ String dot (userAt (Split full dot) i) = full.
Proof.
  intros Hi. unfold hostAt, userAt. destruct i as [|i].
  - left. simpl. rewrite drop_0. now rewrite Join_Split.
  - right. rewrite <- (Join_Split dot full) at 3.
    rewrite <- (take_drop (S i) (Split full dot)) at 3.
    rewrite Join_app; [reflexivity| |].
    + intros H. apply (f_equal length) in H. rewrite length_take in H.
      change (length (@nil string)) with 0%nat in H. lia.
    + intros H. apply (f_equal length) in H. rewrite length_drop in H.
      change (length (@nil string)) with 0%nat in H. lia.
Qed.

(** X22. Under the gateway invariant, what a lookup returns
    recomposes to the key: the connection found is open, its user name
    is the tail of the looked-up host and the returned service host is
    the head, joined by a dot, or the returned host is empty and the
    user name is the whole key; the returned port is the one asked for
    and the connection advertises the returned host at it. *)
Theorem lookup_result_recomposes
    (w : World) (full : string) (port : Z) (s : nat) (h : string) (p : Z) :
  wf w ->
  lookupConnectionService w full port = (Some s, h, p) ->
  exists conn,
    heap w !! s = Some conn /\ closeOnce conn = false /\
    p = port /\ lookupService conn h port = true /\
    ((h = EmptyString /\ user conn = full) \/ h +:+ String dot (user conn) = full).
Proof.
  intros Hwf Hl. pose proof (LookupSessionService_first w full port) as H. simpl in H.
  unfold lookupConnectionService in Hl. rewrite Hl in H.
  destruct H as (i & j & Hi & -> & -> & Hj & Hadv & _).
  assert (Hreg : registered w s (userAt (Split full dot) i))
    by (apply list_elem_of_lookup; eauto).
  destruct (wf_index w Hwf _ s Hreg) as (conn & Hs & Hu & Ho & _).
  exists conn. split; [exact Hs|]. split; [exact Ho|]. split; [reflexivity|]. split.
  - unfold advertises, LookupService in Hadv. now rewrite Hs in Hadv.
  - rewrite Hu. destruct (partition_recomposes full i Hi) as [(_ & Hh & Hfull)|Hfull];
      [left; now split|now right].
Qed.

Lemma lookup_result_recomposes_witness :
  exists conn, heap world_shadow !! 1%nat = Some conn /\ user conn = "api.alice"%string.
Proof.
  destruct (lookup_result_recomposes world_shadow "api.alice" 80 1 EmptyString 80)
    as (conn & Hs & _ & _ & _ & [[_ Hu]|Hu]).
  - apply wf_connectAndForward, wf_connectAndForward, wf_initWorld.
  - vm_compute. reflexivity.
  - exists conn. now split.
  - exfalso. assert (Hc : heap world_shadow !! 1%nat
                     = Some (snd (registerService (newConnection "api.alice" ∅ 0) "" 80)))
      by (vm_compute; reflexivity).
    rewrite Hc in Hs. injection Hs as <-. discriminate Hu.
Defined.

(** X23. Under the gateway invariant, after a connection's
    [cancel-tcpip-forward] for a host and port, the lookup of
    [host + "." + user] at the [uint16] of that port no longer returns
    this connection. *)
Theorem cancel_makes_unresolvable
    (w : World) (c : nat) (conn : Connection) (request : Request) (req : forwardRequest) :
  wf w -> heap w !! c = Some conn ->
  ReqType request = "cancel-tcpip-forward"%string ->
  unmarshalForwardRequest (Payload request) = Some req ->
  let w' := fst (handleRequestAt c request w) in
  fst (fst (lookupConnectionService w' (fwd_Host req +:+ String dot (user conn))
              (uint16 (fwd_Port req)))) <> Some c.
Proof.
  intros Hwf Hc Ht Hd w' Hres.
  assert (Hwf' : wf w') by (apply wf_handleRequestAt; exact Hwf).
  assert (Hc' : heap w' !! c
                = Some (snd (deregisterService conn (fwd_Host req) (uint16 (fwd_Port req))))).
  { unfold w', handleRequestAt. rewrite Hc.
    rewrite (handleRequest_cancel conn request req Ht Hd). simpl. apply lookup_insert_eq. }
  destruct (lookupConnectionService w' (fwd_Host req +:+ String dot (user conn))
              (uint16 (fwd_Port req))) as [[o h] p] eqn:Hl.
  simpl in Hres. subst o.
  destruct (lookup_result_recomposes _ _ _ _ _ _ Hwf' Hl)
    as (conn' & Hs & _ & _ & Hadv & Hkey).
  rewrite Hc' in Hs. injection Hs as <-.
  assert (Hu : user (snd (deregisterService conn (fwd_Host req) (uint16 (fwd_Port req))))
               = user conn).
  { pose proof (deregisterService_frame conn (fwd_Host req) (uint16 (fwd_Port req))) as Hf.
    rewrite <- Hf at 2. reflexivity. }
  rewrite Hu in Hkey. destruct Hkey as [[_ Hkey]|Hkey].
  - apply (f_equal String.length) in Hkey. rewrite length_append in Hkey.
    simpl in Hkey. lia.
  - apply append_cancel_r in Hkey. subst h.
    rewrite deregisterService_absent in Hadv. discriminate.
Qed.

Lemma cancel_makes_unresolvable_witness :
  lookupConnectionService world_alice "api.alice" 80 = (Some 0%nat, "api"%string, 80) /\
  fst (fst (lookupConnectionService
              (fst (handleRequestAt 0 (cancelTcpipForward "api" 80) world_alice))
              "api.alice" 80)) <> Some 0%nat.
Proof.
  split; [vm_compute; reflexivity|].
  apply (cancel_makes_unresolvable world_alice 0
           (snd (registerService (newConnection "alice" permitForwarding 0) "api" 80))
           (cancelTcpipForward "api" 80) (mkForwardRequest "api" 80)).
  - apply wf_connectAndForward, wf_initWorld.
  - vm_compute. reflexivity.
  - reflexivity.
  - vm_compute. reflexivity.
Defined.

(** ** Connecting and closing again *)

(** X24. Under the gateway invariant, a client that connects and is
    closed again leaves the flat list, every user's list and every
    lookup as they were, and the only ssh call is the close of its
    transport; but its user name stays behind as a key of the index,
    with an empty list when the user has no other connection. *)
Theorem connect_then_close
    (name : string) (extensions : gmap string string) (now : Z) (w : World) :
  wf w ->
  let p := fst (HandleConnection name extensions now w) in
  let w2 := Close p (snd (HandleConnection name extensions now w)) in
  sessionsList (gateway w2) = sessionsList (gateway w) /\
  (forall u, index_at (gateway w2) u = index_at (gateway w) u) /\
  is_Some (sessionsIndex (gateway w2) !! name) /\
  (forall full port,
     lookupConnectionService w2 full port = lookupConnectionService w full port) /\
  trace w2 = trace w ++ [EvConnClose p].
Proof.
  intros Hwf p w2.
  set (w1 := snd (HandleConnection name extensions now w)) in *.
  set (conn0 := newConnection name extensions now).
  assert (Hfresh : heap w !! p = None) by now apply HandleConnection_fresh.
  assert (Hp : heap w1 !! p = Some conn0).
  { unfold w1. rewrite HandleConnection_heap. apply lookup_insert_eq. }
  assert (Hnl : p ∉ sessionsList (gateway w)).
  { intros Hin. destruct (wf_list w Hwf p Hin) as (conn & Hc & _). congruence. }
  assert (Hni : forall u, p ∉ index_at (gateway w) u).
  { intros u Hin. destruct (wf_index w Hwf u p Hin) as (conn & Hc & _). congruence. }
  assert (Hlist : sessionsList (gateway w2) = sessionsList (gateway w)).
  { unfold w2. rewrite (Close_list p w1 conn0 Hp eq_refl). unfold w1.
    rewrite HandleConnection_list. fold p.
    now rewrite remove_ptr_head, remove_ptr_absent. }
  assert (Hidx : forall u, index_at (gateway w2) u = index_at (gateway w) u).
  { intros u. unfold w2. rewrite (Close_index p w1 conn0 u Hp eq_refl). unfold w1.
    rewrite HandleConnection_index. fold p. simpl.
    destruct (decide (u = name)); [|reflexivity].
    now rewrite remove_ptr_head, remove_ptr_absent. }
  split; [exact Hlist|]. split; [exact Hidx|]. split; [|split].
  - unfold w2. rewrite (Close_open p w1 conn0 Hp eq_refl). simpl.
    unfold deleteConnection, DeleteSession. simpl. rewrite lookup_insert_eq. simpl.
    rewrite lookup_insert_eq. eauto.
  - intros full port. apply LookupSessionService_ext. intros u host. rewrite Hidx.
    apply scanSessions_ext. intros s. unfold LookupService, w2.
    rewrite (Close_heap p w1 conn0 Hp eq_refl). unfold w1.
    rewrite HandleConnection_heap. fold p.
    destruct (decide (s = p)) as [->|Hne].
    + rewrite lookup_insert_eq, Hfresh. unfold lookupService. simpl.
      now rewrite lookup_empty.
    + now rewrite !lookup_insert_ne by congruence.
  - unfold w2. rewrite (Close_trace p w1 conn0 Hp eq_refl).
    assert (Ht : trace w1 = trace w).
    { unfold w1, HandleConnection, AddSession. simpl. now rewrite lookup_insert_eq. }
    now rewrite Ht.
Qed.

Lemma connect_then_close_witness :
  let w2 := Close 0 (snd (HandleConnection "alice" ∅ 0 initWorld)) in
  sessionsList (gateway w2) = [] /\
  sessionsIndex (gateway w2) !! "alice"%string = Some [] /\
  sessionsIndex (gateway initWorld) !! "alice"%string = None.
Proof.
  intros w2.
  destruct (connect_then_close "alice" ∅ 0 initWorld wf_initWorld) as (Hl & _).
  split; [exact Hl|]. split; vm_compute; reflexivity.
Defined.

(** ** Closing the gateway *)

Lemma closeAll_scavenge (clock : nat -> Z) (snapshot : list nat) :
  forall (i : nat) (w : World),
    scavengeLoop (minDuration - 1) clock i snapshot w = closeAll snapshot w.
Proof.
  induction snapshot as [|s rest IH]; intros i w; simpl; [reflexivity|].
  assert (H : (Since (clock i) (Used w s) >? minDuration - 1) = true).
  { unfold Since, Sub. apply Z.gtb_lt. lia. }
  rewrite H. apply IH.
Qed.

Lemma lookup_empty_index (w : World) (full : string) (port : Z) :
  (forall u, index_at (gateway w) u = []) ->
  lookupConnectionService w full port = (None, EmptyString, 0).
Proof.
  intros Hidx. unfold lookupConnectionService, LookupSessionService.
  generalize (seq 0 (length (Split full dot))) as indices.
  induction indices as [|i rest IH]; simpl; [reflexivity|]. now rewrite Hidx.
Qed.

Lemma list_no_elements (l : list nat) : (forall s, s ∉ l) -> l = [].
Proof.
  destruct l as [|x l]; [reflexivity|]. intros H. exfalso. apply (H x).
  apply elem_of_cons. now left.
Qed.

(** X25. Under the gateway invariant, [Gateway.Close] closes every
    listed connection and nothing else: afterwards the flat list and
    every user's list are empty, each connection that was listed has its
    once-flag set, no lookup finds anything, and the invariant holds.
    A second call, with the gateway's once-flag set, does nothing. *)
Theorem GatewayClose_closes_all (w : World) :
  wf w ->
  let w' := snd (GatewayClose false w) in
  sessionsList (gateway w') = [] /\
  (forall u, index_at (gateway w') u = []) /\
  (forall s conn, s ∈ sessionsList (gateway w) -> heap w !! s = Some conn ->
     heap w' !! s = Some (set_closeOnce conn true)) /\
  (forall s, s ∉ sessionsList (gateway w) -> heap w' !! s = heap w !! s) /\
  (forall full port, lookupConnectionService w' full port = (None, EmptyString, 0)) /\
  wf w' /\
  GatewayClose (fst (GatewayClose false w)) w' = (true, w').
Proof.
  intros Hwf w'.
  set (clock := fun _ : nat => 0).
  destruct (scavengeLoop_spec (minDuration - 1) clock (Sessions w) 0 w Hwf (wf_nodup w Hwf))
    as (Hwf' & Hout & Hin); [tauto|].
  rewrite closeAll_scavenge in Hwf', Hout, Hin.
  change (closeAll (Sessions w) w) with w' in Hwf', Hout, Hin.
  assert (Hgt : forall t u, (Since t u >? minDuration - 1) = true).
  { intros t u. unfold Since, Sub. apply Z.gtb_lt. lia. }
  assert (Hclosed : forall s, s ∈ sessionsList (gateway w) ->
            exists conn, heap w !! s = Some conn /\
              heap w' !! s = Some (set_closeOnce conn true) /\
              (s ∉ sessionsList (gateway w')) /\ forall u, ~ registered w' s u).
  { intros s Hs. destruct (wf_list w Hwf s Hs) as (conn & Hc & _).
    apply list_elem_of_lookup in Hs as [k Hk].
    specialize (Hin k s conn Hk Hc). rewrite Hgt in Hin. exists conn. tauto. }
  assert (Hlist : sessionsList (gateway w') = []).
  { apply list_no_elements. intros s Hs.
    destruct (decide (s ∈ sessionsList (gateway w))) as [Hl|Hl].
    - destruct (Hclosed s Hl) as (_ & _ & _ & Hn & _). contradiction.
    - apply (Hout s Hl) in Hs. contradiction. }
  assert (Hidx : forall u, index_at (gateway w') u = []).
  { intros u. apply list_no_elements. intros s Hs.
    destruct (wf_index w' Hwf' u s Hs) as (_ & _ & _ & _ & Hl).
    rewrite Hlist in Hl. now apply elem_of_nil in Hl. }
  split; [exact Hlist|]. split; [exact Hidx|]. split; [|split; [|split; [|split]]].
  - intros s conn Hs Hc. destruct (Hclosed s Hs) as (conn' & Hc' & H & _). congruence.
  - intros s Hs. now apply (Hout s).
  - intros full port. now apply lookup_empty_index.
  - exact Hwf'.
  - reflexivity.
Qed.

Lemma GatewayClose_closes_all_witness :
  let w' := snd (GatewayClose false world_guest) in
  sessionsList (gateway w') = [] /\
  lookupConnectionService w' "api.alice" 80 = (None, EmptyString, 0) /\
  trace w' = [EvConnClose 1; EvConnClose 0].
Proof.
  intros w'.
  destruct (GatewayClose_closes_all world_guest) as (Hl & _ & _ & _ & Hlk & _).
  - apply wf_HandleConnection, wf_connectAndForward, wf_initWorld.
  - split; [exact Hl|]. split; [apply Hlk|]. vm_compute. reflexivity.
Defined.

(** ** More on the scavenger *)

Lemma scavengeLoop_none_idle (timeout : Z) (clock : nat -> Z) (snapshot : list nat) :
  forall (i : nat) (w : World),
    (forall k s, snapshot !! k = Some s ->
       Since (clock (i + k)%nat) (Used w s) <= timeout) ->
    scavengeLoop timeout clock i snapshot w = w.
Proof.
  induction snapshot as [|s rest IH]; intros i w Hidle; simpl; [reflexivity|].
  pose proof (Hidle 0%nat s eq_refl) as H0. rewrite Nat.add_0_r in H0.
  destruct (Z.gtb_spec (Since (clock i) (Used w s)) timeout); [lia|].
  apply IH. intros k s' Hk. replace (S i + k)%nat with (i + S k)%nat by lia.
  now apply (Hidle (S k)).
Qed.

Lemma Since_le_max (t u : Z) : Since t u <= maxDuration.
Proof. unfold Since, Sub, maxDuration, minDuration. lia. Qed.

(** X26. [ScavengeSessions] keeps the gateway invariant.  When no
    listed connection has been idle for longer than the timeout, it
    changes nothing at all; in particular a timeout of the largest
    [Duration] switches the scavenger off, because [time.Since] never
    exceeds it. *)
Theorem ScavengeSessions_spares_active (timeout : Z) (clock : nat -> Z) (w : World) :
  (wf w -> wf (ScavengeSessions timeout clock w)) /\
  ((forall k s, sessionsList (gateway w) !! k = Some s ->
      Since (clock k) (Used w s) <= timeout) ->
   ScavengeSessions timeout clock w = w) /\
  (maxDuration <= timeout -> ScavengeSessions timeout clock w = w).
Proof.
  split; [|split].
  - intros Hwf.
    destruct (scavengeLoop_spec timeout clock (Sessions w) 0 w Hwf (wf_nodup w Hwf))
      as (H & _); [tauto|exact H].
  - intros Hidle. now apply scavengeLoop_none_idle.
  - intros Hmax. apply scavengeLoop_none_idle. intros k s _.
    pose proof (Since_le_max (clock (0 + k)%nat) (Used w s)). lia.
Qed.

Lemma ScavengeSessions_spares_active_witness :
  ScavengeSessions 600 (fun _ => 600) world_idle = world_idle /\
  wf (ScavengeSessions 600 (fun _ => 700) world_idle).
Proof.
  destruct (ScavengeSessions_spares_active 600 (fun _ => 600) world_idle) as (_ & H & _).
  destruct (ScavengeSessions_spares_active 600 (fun _ => 700) world_idle) as (Hwf & _).
  split.
  - apply H. intros [|[|k]] s Hk; vm_compute in Hk; try discriminate;
      injection Hk as <-; vm_compute; discriminate.
  - apply Hwf. apply wf_HandleConnection, wf_HandleConnection, wf_initWorld.
Defined.

Lemma ScavengeSessions_at (timeout : Z) (clock : nat -> Z) (w : World)
    (k s : nat) (conn : Connection) :
  wf w -> sessionsList (gateway w) !! k = Some s -> heap w !! s = Some conn ->
  let w' := ScavengeSessions timeout clock w in
  if Since (clock k) (used conn) >? timeout
  then heap w' !! s = Some (set_closeOnce conn true) /\
       (s ∉ sessionsList (gateway w')) /\ (forall u, ~ registered w' s u)
  else heap w' !! s = Some conn /\
       s ∈ sessionsList (gateway w') /\ registered w' s (user conn).
Proof.
  intros Hwf Hk Hc.
  destruct (scavengeLoop_spec timeout clock (Sessions w) 0 w Hwf (wf_nodup w Hwf))
    as (_ & _ & Hin); [tauto|].
  exact (Hin k s conn Hk Hc).
Qed.

(** ** The timeout handed to the scavenger *)

(** X27. For an [idle-timeout] of 0 to 9223372036 seconds the
    scavenger's timeout is that many seconds in nanoseconds.  From
    9223372037 seconds on (up to 18446744073) the 64-bit product wraps
    to a negative duration, and then every listed connection whose
    last-used stamp is not in the future is closed at the next
    scavenge, however recently it was used. *)
Theorem idleTimeout_wraps (seconds : Z) :
  (0 <= seconds <= 9223372036 -> idleTimeout seconds = seconds * 1000000000) /\
  (9223372037 <= seconds <= 18446744073 ->
   idleTimeout seconds = seconds * 1000000000 - 18446744073709551616 /\
   idleTimeout seconds < 0 /\
   forall (clock : nat -> Z) (w : World) (k s : nat) (conn : Connection),
     wf w -> sessionsList (gateway w) !! k = Some s -> heap w !! s = Some conn ->
     used conn <= clock k ->
     closeOnce <$> heap (ScavengeSessions (idleTimeout seconds) clock w) !! s = Some true).
Proof.
  assert (Hwrap : 9223372037 <= seconds <= 18446744073 ->
            idleTimeout seconds = seconds * 1000000000 - 18446744073709551616).
  { intros Hs. unfold idleTimeout, int64.
    rewrite (Z.mod_small (seconds + 9223372036854775808)) by lia.
    replace (seconds + 9223372036854775808 - 9223372036854775808) with seconds by lia.
    replace (seconds * 1000000000 + 9223372036854775808)
      with (seconds * 1000000000 - 9223372036854775808 + 1 * 18446744073709551616) by lia.
    rewrite Z.mod_add by lia. rewrite Z.mod_small by lia. lia. }
  split.
  - intros Hs. unfold idleTimeout, int64.
    rewrite (Z.mod_small (seconds + 9223372036854775808)) by lia.
    replace (seconds + 9223372036854775808 - 9223372036854775808) with seconds by lia.
    rewrite Z.mod_small by lia. lia.
  - intros Hs. split; [now apply Hwrap|]. split; [rewrite Hwrap by exact Hs; lia|].
    intros clock w k s conn Hwf Hk Hc Hused.
    pose proof (ScavengeSessions_at (idleTimeout seconds) clock w k s conn Hwf Hk Hc) as H.
    assert (Hgt : (Since (clock k) (used conn) >? idleTimeout seconds) = true).
    { apply Z.gtb_lt. rewrite Hwrap by exact Hs.
      unfold Since, Sub, minDuration, maxDuration. lia. }
    rewrite Hgt in H. destruct H as [Hh _]. now rewrite Hh.
Qed.

Lemma idleTimeout_wraps_witness :
  idleTimeout 600 = 600000000000 /\
  idleTimeout 9223372037 < 0 /\
  closeOnce <$> heap (ScavengeSessions (idleTimeout 9223372037) (fun _ => 500) world_idle)
                  !! 1%nat = Some true.
Proof.
  destruct (idleTimeout_wraps 600) as [Hsmall _].
  destruct (idleTimeout_wraps 9223372037) as [_ Hbig].
  split; [apply Hsmall; lia|].
  destruct Hbig as (_ & Hneg & Hclose); [lia|]. split; [exact Hneg|].
  apply (Hclose (fun _ => 500) world_idle 0%nat 1%nat (newConnection "bob" ∅ 500)).
  - apply wf_HandleConnection, wf_HandleConnection, wf_initWorld.
  - vm_compute. reflexivity.
  - vm_compute. reflexivity.
  - simpl. lia.
Defined.

(** ** The admin flag *)

Section KeptByClose.
Context {A : Type} (g : Connection -> A).
Hypothesis g_closeOnce : forall conn b, g (set_closeOnce conn b) = g conn.

Lemma Close_keeps (c s : nat) (w : World) :
  g <$> heap (Close c w) !! s = g <$> heap w !! s.
Proof.
  destruct (heap w !! c) as [conn|] eqn:Hc; [|unfold Close; now rewrite Hc].
  destruct (closeOnce conn) eqn:Hopen; [now rewrite (Close_closed c w conn Hc Hopen)|].
  rewrite (Close_heap c w conn Hc Hopen). destruct (decide (s = c)) as [->|Hne].
  - rewrite lookup_insert_eq, Hc. simpl. now rewrite g_closeOnce.
  - now rewrite lookup_insert_ne by congruence.
Qed.

Lemma scavengeLoop_keeps (timeout : Z) (clock : nat -> Z) (snapshot : list nat) (s : nat) :
  forall (i : nat) (w : World),
    g <$> heap (scavengeLoop timeout clock i snapshot w) !! s = g <$> heap w !! s.
Proof.
  induction snapshot as [|x rest IH]; intros i w; simpl; [reflexivity|].
  rewrite IH. destruct (_ >? _); [apply Close_keeps|reflexivity].
Qed.

Lemma closeAll_keeps (snapshot : list nat) (s : nat) :
  forall w : World, g <$> heap (closeAll snapshot w) !! s = g <$> heap w !! s.
Proof.
  induction snapshot as [|x rest IH]; intros w; simpl; [reflexivity|].
  rewrite IH. apply Close_keeps.
Qed.
End KeptByClose.

Lemma handleRequest_frame (c : Connection) (request : Request) :
  set_services (fst (handleRequest c request)) (services c) = c.
Proof.
  unfold handleRequest.
  destruct (ReqType request =? "tcpip-forward")%string.
  - destruct (unmarshalForwardRequest (Payload request)) as [req|];
      [|simpl; apply set_services_same].
    destruct (fwd_Port req =? 0); [simpl; apply set_services_same|].
    pose proof (registerService_frame c (fwd_Host req) (uint16 (fwd_Port req))) as Hf.
    destruct (registerService c (fwd_Host req) (uint16 (fwd_Port req))) as [[e|] c1];
      exact Hf.
  - destruct (ReqType request =? "cancel-tcpip-forward")%string;
      [|simpl; apply set_services_same].
    destruct (unmarshalForwardRequest (Payload request)) as [req|];
      [|simpl; apply set_services_same].
    pose proof (deregisterService_frame c (fwd_Host req) (uint16 (fwd_Port req))) as Hf.
    destruct (deregisterService c (fwd_Host req) (uint16 (fwd_Port req))) as [[e|] c1];
      exact Hf.
Qed.

Lemma admin_of_fmap (w w' : World) (s : nat) :
  admin <$> heap w' !! s = admin <$> heap w !! s -> admin_of w' s = admin_of w s.
Proof.
  unfold admin_of. destruct (heap w' !! s), (heap w !! s); simpl; congruence.
Qed.

(** X28. The admin flag of a connection is fixed when it connects: no
    global request, no channel of any kind, no [Close], no scavenging,
    no closing of the gateway and (under the gateway invariant) no later
    connection of anybody changes it. *)
Theorem admin_flag_is_fixed (w : World) (s : nat) :
  (forall c request, admin_of (fst (handleRequestAt c request w)) s = admin_of w s) /\
  (forall c nc env, admin_of (snd (handleChannel c nc env w)) s = admin_of w s) /\
  (forall c, admin_of (Close c w) s = admin_of w s) /\
  (forall timeout clock, admin_of (ScavengeSessions timeout clock w) s = admin_of w s) /\
  (forall done, admin_of (snd (GatewayClose done w)) s = admin_of w s) /\
  (wf w -> is_Some (heap w !! s) ->
   forall name extensions now,
     admin_of (snd (HandleConnection name extensions now w)) s = admin_of w s).
Proof.
  split; [|split; [|split; [|split; [|split]]]].
  - intros c request. apply admin_of_fmap. unfold handleRequestAt.
    destruct (heap w !! c) as [conn|] eqn:Hc; [|reflexivity].
    pose proof (handleRequest_frame conn request) as Hf.
    destruct (handleRequest conn request) as [conn' reply]. simpl in *.
    destruct (decide (s = c)) as [->|Hne].
    + rewrite lookup_insert_eq, Hc. simpl. now rewrite <- Hf.
    + now rewrite lookup_insert_ne by congruence.
  - intros c nc env. apply admin_of_fmap.
    now apply (handleChannel_frame admin (fun _ _ => eq_refl) (fun _ _ => eq_refl)).
  - intros c. apply admin_of_fmap. now apply Close_keeps.
  - intros timeout clock. apply admin_of_fmap. unfold ScavengeSessions.
    now apply scavengeLoop_keeps.
  - intros [|]; [reflexivity|]. apply admin_of_fmap. simpl. now apply closeAll_keeps.
  - intros Hwf [conn Hs] name extensions now. apply admin_of_fmap.
    rewrite HandleConnection_heap.
    assert (Hne : s <> fst (HandleConnection name extensions now w)).
    { intros ->. rewrite (HandleConnection_fresh name extensions now w Hwf) in Hs.
      discriminate. }
    now rewrite lookup_insert_ne by congruence.
Qed.

Lemma admin_flag_is_fixed_witness :
  admin_of (snd (HandleConnection "mallory" permitForwarding 9 world_guest)) 1 = false.
Proof.
  destruct (admin_flag_is_fixed world_guest 1) as (_ & _ & _ & _ & _ & H).
  rewrite H.
  - vm_compute. reflexivity.
  - apply wf_HandleConnection, wf_connectAndForward, wf_initWorld.
  - vm_compute. eauto.
Defined.

(** ** Instances *)

Lemma deregisterService_only_named_witness :
  let c := snd (registerService (snd (registerService (newConnection "alice" ∅ 0) "api" 80))
                  "api" 443) in
  lookupService (snd (deregisterService c "api" 80)) "api" 443 = true /\
  dom (services (snd (deregisterService c "api" 80))) = dom (services c).
Proof.
  intros c. destruct (deregisterService_only_named c "api" 80) as (Ho & _ & Hd).
  split; [|exact Hd].
  rewrite (Ho "api"%string 443); [vm_compute; reflexivity|discriminate].
Defined.

Lemma handleTunnelChannel_ok_iff_witness :
  handleTunnelChannel 0 (mkNewChannel "direct-tcpip" [Byte.x00]) (mkChannelEnv true true)
    world_guest
  = ((false, UnknownChannelType, "failed to decode extra data"%string), world_guest) /\
  fst (fst (fst (handleTunnelChannel 0 (directTcpip "api.alice" 80 "1.2.3.4" 5)
                   (mkChannelEnv true false) world_guest))) = true.
Proof.
  split.
  - apply (handleTunnelChannel_ok_iff 0 (mkNewChannel "direct-tcpip" [Byte.x00])).
    reflexivity.
  - apply (handleTunnelChannel_ok_iff 0 (directTcpip "api.alice" 80 "1.2.3.4" 5)
             (mkChannelEnv true false) world_guest).
    exists (mkTunnelData "api.alice" 80 "1.2.3.4" 5), 0%nat, "api"%string, 80.
    repeat split; vm_compute; reflexivity.
Defined.
